(** * Inventory system: a shallow embedding of [inventory_system.py]

    The module keeps one process-wide dictionary [stock_data] from item
    names to quantities, with operations to add, remove and query items,
    to list the items that run low, to print a report, and to save the
    dictionary to a JSON file and load it back; [main] runs them in turn.

    Python values are embedded as the inductive type [pyval]; the
    exceptions the module can meet are the constructors of [exn]; every
    function of the module becomes a function on explicit state (the
    dictionary, the caller's log list, the printed lines, the files). *)

From Stdlib Require Import ZArith NArith List String Ascii Bool Lia.
From Stdlib Require Import Floats.SpecFloat.
Import ListNotations.

Set Warnings "-register-all".
Open Scope Z_scope.

(** ** Python values *)

(** A [str] is a sequence of code points. *)
Definition pystr := list N.

(** The code points of a literal written in this file. *)
Definition str (s : string) : pystr :=
  map N_of_ascii (list_ascii_of_string s).

(** The same between double quotes. *)
Definition quoted (s : string) : pystr :=
  34%N :: str s ++ [34%N].

(** [float] is IEEE 754 binary64. *)
Definition prec : Z := 53.
Definition emax : Z := 1024.

(** The values the module handles: what a caller passes as a literal and
    what [json.load] can return.  [bool] is a subclass of [int] in Python;
    the functions below treat [PBool] accordingly. *)
Inductive pyval : Type :=
| PNone
| PBool (b : bool)
| PInt (z : Z)
| PFloat (f : spec_float)
| PStr (s : pystr)
| PList (l : list pyval)
| PDict (d : list (pystr * pyval)).

(** A [dict] with [str] keys, in insertion order. *)
Definition dict := list (pystr * pyval).

Inductive exn : Type :=
| ValueError
| KeyError
| TypeError
| OverflowError
| FileNotFoundError
| OSError
| JSONDecodeError.

Inductive result (A : Type) : Type :=
| Ok (a : A)
| Raise (e : exn).
Arguments Ok {A} a.
Arguments Raise {A} e.

Definition bind {A B : Type} (r : result A) (k : A -> result B) : result B :=
  match r with
  | Ok a => k a
  | Raise e => Raise e
  end.

Notation "'let*' x ':=' r 'in' k" := (bind r (fun x => k))
  (at level 10, x pattern, r at level 100, k at level 200).

(** ** Numbers *)

Inductive number : Type :=
| NumInt (z : Z)
| NumFloat (f : spec_float).

(** The numeric view of a value: [int], [bool] (as 0 or 1) and [float]. *)
Definition as_number (v : pyval) : option number :=
  match v with
  | PBool b => Some (NumInt (Z.b2z b))
  | PInt z => Some (NumInt z)
  | PFloat f => Some (NumFloat f)
  | _ => None
  end.

Definition of_number (n : number) : pyval :=
  match n with
  | NumInt z => PInt z
  | NumFloat f => PFloat f
  end.

(** [isinstance(v, (int, float))] *)
Definition isinstance_number (v : pyval) : bool :=
  match v with
  | PBool _ | PInt _ | PFloat _ => true
  | _ => false
  end.

(** [isinstance(v, str)] *)
Definition isinstance_str (v : pyval) : bool :=
  match v with
  | PStr _ => true
  | _ => false
  end.

(** [float(z)] for an [int]: rounded to nearest even, [OverflowError] when
    the integer is too large for a binary64. *)
Definition float_of_int (z : Z) : result spec_float :=
  match binary_normalize prec emax z 0 false with
  | S754_infinity _ => Raise OverflowError
  | f => Ok f
  end.

(** Arithmetic on mixed operands converts the [int] to [float]. *)
Definition num_arith (iop : Z -> Z -> Z)
    (fop : spec_float -> spec_float -> spec_float) (a b : number)
  : result number :=
  match a, b with
  | NumInt x, NumInt y => Ok (NumInt (iop x y))
  | NumFloat x, NumFloat y => Ok (NumFloat (fop x y))
  | NumInt x, NumFloat y =>
      let* fx := float_of_int x in Ok (NumFloat (fop fx y))
  | NumFloat x, NumInt y =>
      let* fy := float_of_int y in Ok (NumFloat (fop x fy))
  end.

Definition num_add : number -> number -> result number :=
  num_arith Z.add (SFadd prec emax).

Definition num_sub : number -> number -> result number :=
  num_arith Z.sub (SFsub prec emax).

(** Python compares an [int] with a [float] by value, without converting
    the [int].  [None] stands for unordered (a NaN operand). *)
Definition compare_int_float (z : Z) (f : spec_float) : option comparison :=
  match f with
  | S754_nan => None
  | S754_infinity s => Some (if s then Gt else Lt)
  | S754_zero _ => Some (z ?= 0)
  | S754_finite s m e =>
      let mz := if s then Zneg m else Zpos m in
      match e with
      | Zneg p => Some (z * 2 ^ Zpos p ?= mz)
      | _ => Some (z ?= mz * 2 ^ e)
      end
  end.

Definition num_compare (a b : number) : option comparison :=
  match a, b with
  | NumInt x, NumInt y => Some (x ?= y)
  | NumFloat x, NumFloat y => SFcompare x y
  | NumInt x, NumFloat y => compare_int_float x y
  | NumFloat x, NumInt y => option_map CompOpp (compare_int_float y x)
  end.

(** The two ordering operators the module uses, [<] and [<=]. *)
Inductive cmpop : Type := OpLt | OpLe.

Definition cmp_holds (op : cmpop) (c : option comparison) : bool :=
  match op, c with
  | _, Some Lt => true
  | OpLe, Some Eq => true
  | _, _ => false
  end.

(** ** Strings *)

Fixpoint pystr_eqb (s t : pystr) : bool :=
  match s, t with
  | [], [] => true
  | a :: s', b :: t' => N.eqb a b && pystr_eqb s' t'
  | _, _ => false
  end.

(** Lexicographic order on code points. *)
Fixpoint pystr_compare (s t : pystr) : comparison :=
  match s, t with
  | [], [] => Eq
  | [], _ :: _ => Lt
  | _ :: _, [] => Gt
  | a :: s', b :: t' =>
      match N.compare a b with
      | Eq => pystr_compare s' t'
      | c => c
      end
  end.

(** ** Dictionaries *)

Fixpoint dict_get (k : pystr) (d : dict) : option pyval :=
  match d with
  | [] => None
  | (k', v) :: d' => if pystr_eqb k k' then Some v else dict_get k d'
  end.

Definition dict_mem (k : pystr) (d : dict) : bool :=
  match dict_get k d with
  | Some _ => true
  | None => false
  end.

(** [d[k] = v]: an existing key keeps its position, a new key goes last. *)
Definition dict_set (k : pystr) (v : pyval) (d : dict) : dict :=
  if dict_mem k d
  then map (fun kv => if pystr_eqb k (fst kv) then (fst kv, v) else kv) d
  else d ++ [(k, v)].

(** [del d[k]] for a key that is present. *)
Definition dict_del (k : pystr) (d : dict) : dict :=
  filter (fun kv => negb (pystr_eqb k (fst kv))) d.

(** A Python dictionary holds every key once. *)
Definition dict_wf (d : dict) : Prop := NoDup (map fst d).

(** Lists and dictionaries are unhashable: using one as a key raises
    [TypeError]. *)
Definition hashable (v : pyval) : bool :=
  match v with
  | PList _ | PDict _ => false
  | _ => true
  end.

(** [d[item]] on a dictionary with [str] keys.  A hashable value that is
    not a [str] equals no key. *)
Definition getitem (d : dict) (item : pyval) : result (pystr * pyval) :=
  match item with
  | PStr k =>
      match dict_get k d with
      | Some v => Ok (k, v)
      | None => Raise KeyError
      end
  | PList _ | PDict _ => Raise TypeError
  | _ => Raise KeyError
  end.

(** [d.get(item, default)] *)
Definition get_default (d : dict) (item default : pyval) : result pyval :=
  match item with
  | PStr k =>
      match dict_get k d with
      | Some v => Ok v
      | None => Ok default
      end
  | PList _ | PDict _ => Raise TypeError
  | _ => Ok default
  end.

(** ** Operators on values *)

(** [a == b].  Object identity plays no role here: the operands of the
    comparisons below are the caller's argument and a stored value. *)
Fixpoint py_eq (a b : pyval) {struct a} : bool :=
  match a, b with
  | PNone, PNone => true
  | PStr s, PStr t => pystr_eqb s t
  | PList l, PList r =>
      (fix go (l r : list pyval) {struct l} : bool :=
         match l, r with
         | [], [] => true
         | x :: l', y :: r' => py_eq x y && go l' r'
         | _, _ => false
         end) l r
  | PDict d, PDict e =>
      Nat.eqb (List.length d) (List.length e) &&
      (fix go (d : list (pystr * pyval)) {struct d} : bool :=
         match d with
         | [] => true
         | (k, v) :: d' =>
             match dict_get k e with
             | Some w => py_eq v w
             | None => false
             end && go d'
         end) d
  | _, _ =>
      match as_number a, as_number b with
      | Some x, Some y =>
          match num_compare x y with
          | Some Eq => true
          | _ => false
          end
      | _, _ => false
      end
  end.

(** [a < b] and [a <= b]: numbers by value, strings and lists
    lexicographically, anything else is a [TypeError]. *)
Fixpoint py_richcmp (op : cmpop) (a b : pyval) {struct a} : result bool :=
  match a, b with
  | PStr s, PStr t => Ok (cmp_holds op (Some (pystr_compare s t)))
  | PList l, PList r =>
      (fix go (l r : list pyval) {struct l} : result bool :=
         match l, r with
         | [], [] => Ok (cmp_holds op (Some Eq))
         | [], _ :: _ => Ok true
         | _ :: _, [] => Ok false
         | x :: l', y :: r' =>
             if py_eq x y then go l' r' else py_richcmp op x y
         end) l r
  | _, _ =>
      match as_number a, as_number b with
      | Some x, Some y => Ok (cmp_holds op (num_compare x y))
      | _, _ => Raise TypeError
      end
  end.

Definition py_lt : pyval -> pyval -> result bool := py_richcmp OpLt.
Definition py_le : pyval -> pyval -> result bool := py_richcmp OpLe.

(** [a + b] *)
Definition py_add (a b : pyval) : result pyval :=
  match a, b with
  | PStr s, PStr t => Ok (PStr (s ++ t))
  | PList l, PList r => Ok (PList (l ++ r))
  | _, _ =>
      match as_number a, as_number b with
      | Some x, Some y => let* n := num_add x y in Ok (of_number n)
      | _, _ => Raise TypeError
      end
  end.

(** [a - b] *)
Definition py_sub (a b : pyval) : result pyval :=
  match as_number a, as_number b with
  | Some x, Some y => let* n := num_sub x y in Ok (of_number n)
  | _, _ => Raise TypeError
  end.

(** ** The inventory operations *)

(** [datetime.now()] is an input of [add_item]. *)
Definition timestamp := Z.

(** The entry [f"{datetime.now()}: Added {qty} of {item}"]. *)
Record log_entry : Type := Added {
  log_time : timestamp;
  log_qty : pyval;
  log_item : pyval
}.

(** The lines the module prints. *)
Inductive message : Type :=
| NotFoundWarning (item : pyval)
    (* Warning: '<item>' not found in inventory. *)
| InvalidQuantityError
    (* Error: Invalid quantity type. *)
| FileNotFoundNotice (path : pystr)
    (* File '<path>' not found. Starting with empty inventory. *)
| DecodeErrorNotice (path : pystr).
    (* Error decoding JSON from '<path>'. *)

(** [add_item(item, qty, logs)].  The result is the outcome, the
    dictionary and the caller's log list after the call; with
    [logs = None] the entry goes to a fresh list the caller never sees. *)
Definition add_item (now : timestamp) (item qty : pyval)
    (logs : option (list log_entry)) (stock_data : dict)
  : result unit * dict * option (list log_entry) :=
  let local := match logs with None => [] | Some l => l end in
  match item with
  | PStr k =>
      if isinstance_number qty then
        match (let* cur := get_default stock_data item (PInt 0) in
               py_add cur qty) with
        | Ok v =>
            let local' := local ++ [Added now qty item] in
            (Ok tt, dict_set k v stock_data,
             match logs with None => None | Some _ => Some local' end)
        | Raise e => (Raise e, stock_data, logs)
        end
      else (Raise ValueError, stock_data, logs)
  | _ => (Raise ValueError, stock_data, logs)
  end.

(** The two [except] clauses of [remove_item]; any other exception
    propagates. *)
Definition remove_handler (item : pyval) (e : exn) (stock_data : dict)
  : result unit * dict * list message :=
  match e with
  | KeyError => (Ok tt, stock_data, [NotFoundWarning item])
  | TypeError => (Ok tt, stock_data, [InvalidQuantityError])
  | _ => (Raise e, stock_data, [])
  end.

(** [remove_item(item, qty)]: outcome, dictionary and printed lines. *)
Definition remove_item (item qty : pyval) (stock_data : dict)
  : result unit * dict * list message :=
  match getitem stock_data item with
  | Raise e => remove_handler item e stock_data
  | Ok (k, cur) =>
      match py_sub cur qty with
      | Raise e => remove_handler item e stock_data
      | Ok v =>
          let stock1 := dict_set k v stock_data in
          match py_le v (PInt 0) with
          | Raise e => remove_handler item e stock1
          | Ok true => (Ok tt, dict_del k stock1, [])
          | Ok false => (Ok tt, stock1, [])
          end
      end
  end.

(** [get_qty(item)] *)
Definition get_qty (item : pyval) (stock_data : dict) : result pyval :=
  get_default stock_data item (PInt 0).

(** [check_low_items(threshold)]: the comprehension visits the entries in
    order; the first comparison that raises ends it. *)
Fixpoint check_low_items (threshold : pyval) (stock_data : dict)
  : result (list pystr) :=
  match stock_data with
  | [] => Ok []
  | (item, qty) :: rest =>
      let* low := py_lt qty threshold in
      let* items := check_low_items threshold rest in
      Ok (if low then item :: items else items)
  end.

(** ** JSON text *)

(** A file opened in text mode holds a [str]. *)
Definition text := pystr.

(** *** Decimal digits *)

(** A digit is a number below 10; its character is ['0'] plus it. *)
Definition digit_char (d : N) : N := (48 + d)%N.

Fixpoint digits_fuel (fuel : nat) (n : Z) (acc : list N) : list N :=
  match fuel with
  | O => acc
  | S fuel' =>
      let acc' := Z.to_N (n mod 10) :: acc in
      if n / 10 =? 0 then acc' else digits_fuel fuel' (n / 10) acc'
  end.

(** The decimal digits of a natural number, most significant first;
    [0] is the single digit 0. *)
Definition digits_of (n : Z) : list N :=
  digits_fuel (S (Z.to_nat (Z.log2 n))) n [].

Definition digits_value (ds : list N) : Z :=
  fold_left (fun acc d => 10 * acc + Z.of_N d) ds 0.

(** *** Number literals *)

(** The parts of a JSON number: sign, integer digits, fraction digits
    (none when there is no ['.']) and exponent. *)
Record numlit : Type := NumLit {
  nl_neg : bool;
  nl_int : list N;
  nl_frac : list N;
  nl_exp : option Z
}.

(** Decimal to binary64, correctly rounded: the value is [M * 10 ^ E]. *)
Definition strtod (neg : bool) (M E : Z) : spec_float :=
  if M =? 0 then S754_zero neg
  else
    match E with
    | Zneg p =>
        let D := 10 ^ Zpos p in
        let k := Z.max 0 (56 + Z.log2 D - Z.log2 M) in
        let n := M * 2 ^ k in
        let m' := 2 * (n / D) + (if n mod D =? 0 then 0 else 1) in
        binary_normalize prec emax (if neg then - m' else m') (- k - 1) false
    | _ =>
        let n := M * 10 ^ E in
        binary_normalize prec emax (if neg then - n else n) 0 false
    end.

(** [int(lexeme)] when the literal has neither fraction nor exponent,
    [float(lexeme)] otherwise. *)
Definition numlit_value (l : numlit) : pyval :=
  match nl_frac l, nl_exp l with
  | [], None =>
      let n := digits_value (nl_int l) in
      PInt (if nl_neg l then - n else n)
  | frac, ex =>
      let E := match ex with Some x => x | None => 0 end in
      PFloat (strtod (nl_neg l) (digits_value (nl_int l ++ frac))
                (E - Z.of_nat (List.length frac)))
  end.

Definition render_exp (x : Z) : text :=
  let ds := digits_of (Z.abs x) in
  [101%N; if x <? 0 then 45%N else 43%N]
    ++ map digit_char (match ds with [d] => [0%N; d] | _ => ds end).

Definition render_frac (frac : list N) : text :=
  match frac with
  | [] => []
  | _ :: _ => 46%N :: map digit_char frac
  end.

Definition render_exp_opt (ex : option Z) : text :=
  match ex with
  | None => []
  | Some x => render_exp x
  end.

Definition render_numlit (l : numlit) : text :=
  (if nl_neg l then [45%N] else [])
    ++ map digit_char (nl_int l)
    ++ render_frac (nl_frac l)
    ++ render_exp_opt (nl_exp l).

(** *** [repr] of a finite float *)

Definition spec_float_eqb (x y : spec_float) : bool :=
  match x, y with
  | S754_zero a, S754_zero b => Bool.eqb a b
  | S754_infinity a, S754_infinity b => Bool.eqb a b
  | S754_nan, S754_nan => true
  | S754_finite a m e, S754_finite b n f =>
      Bool.eqb a b && Pos.eqb m n && Z.eqb e f
  | _, _ => false
  end.

Definition is_digit_value (d : N) : bool := (d <? 10)%N.

Definition int_digits_ok (ids : list N) : bool :=
  match ids with
  | [] => false
  | [d] => is_digit_value d
  | d :: _ => (1 <=? d)%N && forallb is_digit_value ids
  end.

(** A literal the scanner accepts: digits below 10, no leading zero. *)
Definition numlit_wf (l : numlit) : bool :=
  int_digits_ok (nl_int l) && forallb is_digit_value (nl_frac l).

(** The literal is one the scanner accepts, and it reads as [f]. *)
Definition literal_reads_as (l : numlit) (f : spec_float) : bool :=
  numlit_wf l &&
  match numlit_value l with
  | PFloat g => spec_float_eqb g f
  | _ => false
  end.

Definition ndigits (n : Z) : Z := Z.of_nat (List.length (digits_of n)).

(** [m * 2 ^ e] as a fraction. *)
Definition float_ratio (m : positive) (e : Z) : Z * Z :=
  match e with
  | Zneg p => (Zpos m, 2 ^ Zpos p)
  | _ => (Zpos m * 2 ^ e, 1)
  end.

(** The position of the decimal point: [10 ^ (dp - 1) <= num / den < 10 ^ dp]. *)
Definition decpt_of (num den : Z) : Z :=
  let d := ndigits num - ndigits den in
  let ge := if 0 <=? d then den * 10 ^ d <=? num
            else den <=? num * 10 ^ (- d) in
  if ge then d + 1 else d.

(** The two decimals with [p] digits around [num / den], the nearer one
    first, each as [(D, q)] for [D * 10 ^ q]. *)
Definition candidates (num den dp p : Z) : list (Z * Z) :=
  let shift := p - dp in
  let nt := if 0 <=? shift then num * 10 ^ shift else num in
  let dt := if 0 <=? shift then den else den * 10 ^ (- shift) in
  let lo := nt / dt in
  let r := nt mod dt in
  let q := dp - p in
  if r =? 0 then [(lo, q)]
  else
    match 2 * r ?= dt with
    | Lt => [(lo, q); (lo + 1, q)]
    | Gt => [(lo + 1, q); (lo, q)]
    | Eq => if Z.even lo then [(lo, q); (lo + 1, q)]
            else [(lo + 1, q); (lo, q)]
    end.

(** The decimal expansion of [m * 2 ^ e], which is finite. *)
Definition exact_decimal (m : positive) (e : Z) : Z * Z :=
  match e with
  | Zneg a => (Zpos m * 5 ^ Zpos a, Zneg a)
  | _ => (Zpos m * 2 ^ e, 0)
  end.

(** The first decimal that is [ok], trying [p], [p + 1], ... digits and
    at each length the nearer candidate first; [last] once [fuel] lengths
    have been tried. *)
Fixpoint shortest (fuel : nat) (ok : Z * Z -> bool) (num den dp p : Z)
    (last : Z * Z) : Z * Z :=
  match fuel with
  | O => last
  | S fuel' =>
      match find ok (candidates num den dp p) with
      | Some c => c
      | None => shortest fuel' ok num den dp (p + 1) last
      end
  end.

Fixpoint strip_zeros (fuel : nat) (D q : Z) : Z * Z :=
  match fuel with
  | O => (D, q)
  | S fuel' =>
      if (D mod 10 =? 0) && negb (D =? 0)
      then strip_zeros fuel' (D / 10) (q + 1)
      else (D, q)
  end.

(** The literal of [D * 10 ^ q] as [repr] lays it out: positional
    notation when the decimal point falls within [-4 < decpt <= 16],
    exponent notation otherwise. *)
Definition format_decimal (neg : bool) (D0 q0 : Z) : numlit :=
  let '(D, q) := strip_zeros 18 D0 q0 in
  let ds := digits_of D in
  let n := Z.of_nat (List.length ds) in
  let decpt := n + q in
  if (-4 <? decpt) && (decpt <=? 16) then
    if decpt <=? 0 then
      NumLit neg [0%N] (repeat 0%N (Z.to_nat (- decpt)) ++ ds) None
    else if decpt <? n then
      NumLit neg (firstn (Z.to_nat decpt) ds) (skipn (Z.to_nat decpt) ds) None
    else
      NumLit neg (ds ++ repeat 0%N (Z.to_nat (decpt - n))) [0%N] None
  else
    NumLit neg (firstn 1 ds) (skipn 1 ds) (Some (decpt - 1)).

(** [float.__repr__] on a finite float: the shortest decimal that reads
    back as the float, the nearest one among those.  At most 17 digits
    are ever needed; were they not, the exact expansion, which reads back
    too, ends the search. *)
Definition float_repr_finite (neg : bool) (m : positive) (e : Z) : numlit :=
  let '(num, den) := float_ratio m e in
  let dp := decpt_of num den in
  let reads c :=
    literal_reads_as (format_decimal neg (fst c) (snd c))
      (S754_finite neg m e) in
  let '(D, q) := shortest 17 reads num den dp 1 (exact_decimal m e) in
  format_decimal neg D q.

(** [json.encoder]'s [floatstr]. *)
Definition floatstr (f : spec_float) : text :=
  match f with
  | S754_nan => str "NaN"
  | S754_infinity false => str "Infinity"
  | S754_infinity true => str "-Infinity"
  | S754_zero s => render_numlit (NumLit s [0%N] [0%N] None)
  | S754_finite s m e => render_numlit (float_repr_finite s m e)
  end.

(** [int.__repr__] *)
Definition intstr (z : Z) : text :=
  render_numlit (NumLit (z <? 0) (digits_of (Z.abs z)) [] None).

(** *** Strings *)

Definition hex_digit (n : N) : N :=
  (if n <? 10 then 48 + n else 87 + n)%N.

(** ['{0:04x}'.format(n)] *)
Definition hex4 (n : N) : text :=
  [hex_digit (n / 4096 mod 16); hex_digit (n / 256 mod 16);
   hex_digit (n / 16 mod 16); hex_digit (n mod 16)]%N.

(** The UTF-16 surrogates of a code point above the basic plane. *)
Definition surrogate_high (c : N) : N :=
  N.lor 55296 (N.land (N.shiftr (c - 65536) 10) 1023).

Definition surrogate_low (c : N) : N :=
  N.lor 56320 (N.land (c - 65536) 1023).

(** One character of [py_encode_basestring_ascii]: the short escapes,
    printable ASCII as it is, [\uXXXX] for the rest, as a surrogate pair
    above the basic plane. *)
Definition escape_char (c : N) : text :=
  (if c =? 34 then [92; 34]
   else if c =? 92 then [92; 92]
   else if c =? 10 then [92; 110]
   else if c =? 13 then [92; 114]
   else if c =? 9 then [92; 116]
   else if c =? 12 then [92; 102]
   else if c =? 8 then [92; 98]
   else if (32 <=? c) && (c <=? 126) then [c]
   else if c <? 65536 then 92 :: 117 :: hex4 c
   else (92 :: 117 :: hex4 (surrogate_high c))
          ++ (92 :: 117 :: hex4 (surrogate_low c)))%N.

Definition encode_basestring_ascii (s : pystr) : text :=
  34%N :: flat_map escape_char s ++ [34%N].

(** *** The encoder, with [indent=4] *)

Definition newline_indent (level : nat) : text :=
  10%N :: repeat 32%N (4 * level).

(** [json.dump]'s output for a value at nesting depth [level]: an empty
    container is written closed; otherwise every element goes on a line
    of its own, separated by [','], with [': '] after a key. *)
Fixpoint encode (level : nat) (v : pyval) {struct v} : text :=
  match v with
  | PNone => str "null"
  | PBool true => str "true"
  | PBool false => str "false"
  | PInt z => intstr z
  | PFloat f => floatstr f
  | PStr s => encode_basestring_ascii s
  | PList [] => str "[]"
  | PList (x :: l) =>
      91%N :: newline_indent (S level) ++ encode (S level) x
        ++ flat_map
             (fun y => 44%N :: newline_indent (S level) ++ encode (S level) y)
             l
        ++ newline_indent level ++ [93%N]
  | PDict [] => str "{}"
  | PDict ((k, x) :: d) =>
      123%N :: newline_indent (S level)
        ++ encode_basestring_ascii k ++ [58%N; 32%N] ++ encode (S level) x
        ++ flat_map
             (fun ky =>
                44%N :: newline_indent (S level)
                  ++ encode_basestring_ascii (fst ky) ++ [58%N; 32%N]
                  ++ encode (S level) (snd ky))
             d
        ++ newline_indent level ++ [125%N]
  end.

(** The text [json.dump(obj, file, indent=4)] writes. *)
Definition dumps (obj : pyval) : text := encode 0 obj.

(** *** The decoder *)

Definition is_ws (c : N) : bool :=
  ((c =? 32) || (c =? 9) || (c =? 10) || (c =? 13))%N.

Fixpoint skip_ws (s : text) : text :=
  match s with
  | c :: s' => if is_ws c then skip_ws s' else s
  | [] => []
  end.

Definition is_digit (c : N) : bool := ((48 <=? c) && (c <=? 57))%N.

Definition hex_value (c : N) : option N :=
  (if (48 <=? c) && (c <=? 57) then Some (c - 48)
   else if (97 <=? c) && (c <=? 102) then Some (c - 87)
   else if (65 <=? c) && (c <=? 70) then Some (c - 55)
   else None)%N.

Definition hex4_value (a b c d : N) : option N :=
  match hex_value a, hex_value b, hex_value c, hex_value d with
  | Some x, Some y, Some z, Some w => Some (((x * 16 + y) * 16 + z) * 16 + w)%N
  | _, _, _, _ => None
  end.

Definition is_high_surrogate (u : N) : bool := ((55296 <=? u) && (u <=? 56319))%N.
Definition is_low_surrogate (u : N) : bool := ((56320 <=? u) && (u <=? 57343))%N.
Definition join_surrogates (hi lo : N) : N :=
  (65536 + N.lor (N.shiftl (hi - 55296) 10) (lo - 56320))%N.

Definition simple_escape (e : N) : option N :=
  (if e =? 34 then Some 34
   else if e =? 92 then Some 92
   else if e =? 47 then Some 47
   else if e =? 98 then Some 8
   else if e =? 102 then Some 12
   else if e =? 110 then Some 10
   else if e =? 114 then Some 13
   else if e =? 116 then Some 9
   else None)%N.

Definition cons_char (c : N) (r : option (pystr * text))
  : option (pystr * text) :=
  match r with
  | Some (k, rest) => Some (c :: k, rest)
  | None => None
  end.

(** [scanstring], strict, from the character after the opening quote:
    the decoded string and the text after the closing quote. *)
Fixpoint scanstring (s : text) {struct s} : option (pystr * text) :=
  match s with
  | [] => None
  | c :: s1 =>
      if (c =? 34)%N then Some ([], s1)
      else if (c =? 92)%N then
        match s1 with
        | [] => None
        | e :: s2 =>
            if (e =? 117)%N then
              match s2 with
              | a :: b :: c' :: d :: s3 =>
                  match hex4_value a b c' d with
                  | None => None
                  | Some u =>
                      if is_high_surrogate u then
                        match s3 with
                        | b1 :: u1 :: a2 :: b2 :: c2 :: d2 :: ((_ :: _) as s4) =>
                            if ((b1 =? 92) && (u1 =? 117))%N then
                              match hex4_value a2 b2 c2 d2 with
                              | None => None
                              | Some u2 =>
                                  if is_low_surrogate u2
                                  then cons_char (join_surrogates u u2)
                                         (scanstring s4)
                                  else cons_char u (scanstring s3)
                              end
                            else cons_char u (scanstring s3)
                        | _ => cons_char u (scanstring s3)
                        end
                      else cons_char u (scanstring s3)
                  end
              | _ => None
              end
            else
              match simple_escape e with
              | Some x => cons_char x (scanstring s2)
              | None => None
              end
        end
      else if (c <=? 31)%N then None
      else cons_char c (scanstring s1)
  end.

Fixpoint take_digits (s : text) : list N * text :=
  match s with
  | c :: s' =>
      if is_digit c
      then let '(ds, r) := take_digits s' in ((c - 48)%N :: ds, r)
      else ([], s)
  | [] => ([], [])
  end.

(** The number at the head of the text, as the scanner matches it: an
    optional ['-'], [0] or a digit string without leading zero, a
    fraction when ['.'] is followed by a digit, an exponent when ['e'] or
    ['E'] and an optional sign are followed by a digit. *)
Definition match_sign (s : text) : bool * text :=
  match s with
  | c :: s' => if (c =? 45)%N then (true, s') else (false, s)
  | [] => (false, s)
  end.

Definition match_int (s : text) : option (list N * text) :=
  match s with
  | [] => None
  | c :: s' =>
      if ((49 <=? c) && (c <=? 57))%N then
        let '(ds, r) := take_digits s' in Some ((c - 48)%N :: ds, r)
      else if (c =? 48)%N then Some ([0%N], s')
      else None
  end.

Definition match_frac (s : text) : list N * text :=
  match s with
  | dot :: d :: s' =>
      if (dot =? 46)%N && is_digit d
      then let '(ds, r) := take_digits s' in ((d - 48)%N :: ds, r)
      else ([], s)
  | _ => ([], s)
  end.

(** Without a digit after ['e'] and the sign the scanner backtracks: the
    number ends before the ['e']. *)
Definition match_exp (s : text) : option Z * text :=
  match s with
  | e :: s' =>
      if ((e =? 101) || (e =? 69))%N then
        let '(eneg, s'') :=
          match s' with
          | sg :: t =>
              if (sg =? 45)%N then (true, t)
              else if (sg =? 43)%N then (false, t)
              else (false, s')
          | [] => (false, s')
          end in
        match take_digits s'' with
        | ([], _) => (None, s)
        | (ds, r) =>
            (Some (if eneg then - digits_value ds else digits_value ds), r)
        end
      else (None, s)
  | [] => (None, s)
  end.

Definition match_number (s : text) : option (numlit * text) :=
  let '(neg, s1) := match_sign s in
  match match_int s1 with
  | None => None
  | Some (ids, s2) =>
      let '(frac, s3) := match_frac s2 in
      let '(ex, s4) := match_exp s3 in
      Some (NumLit neg ids frac ex, s4)
  end.

Fixpoint strip_prefix (p s : text) : option text :=
  match p, s with
  | [], _ => Some s
  | a :: p', b :: s' => if (a =? b)%N then strip_prefix p' s' else None
  | _ :: _, [] => None
  end.

(** The literals [null], [true], [false], [NaN], [Infinity] and
    [-Infinity]. *)
Definition match_constant (s : text) : option (pyval * text) :=
  let try (p : text) (v : pyval) (k : option (pyval * text)) :=
    match strip_prefix p s with
    | Some r => Some (v, r)
    | None => k
    end in
  try (str "null") PNone
    (try (str "true") (PBool true)
       (try (str "false") (PBool false)
          (try (str "NaN") (PFloat S754_nan)
             (try (str "Infinity") (PFloat (S754_infinity false))
                (try (str "-Infinity") (PFloat (S754_infinity true))
                   None))))).

(** [scan_once]: the value at the head of the text and the text after
    it; [None] is a decoding error.  [fuel] bounds the nesting depth. *)
Fixpoint scan_once (fuel : nat) (s : text) {struct fuel}
  : option (pyval * text) :=
  match fuel with
  | O => None
  | S n =>
      match s with
      | [] => None
      | c :: s1 =>
          if (c =? 34)%N then
            match scanstring s1 with
            | Some (k, r) => Some (PStr k, r)
            | None => None
            end
          else if (c =? 123)%N then
            match skip_ws s1 with
            | [] => None
            | c2 :: r =>
                if (c2 =? 125)%N then Some (PDict [], r)
                else parse_object n (c2 :: r) []
            end
          else if (c =? 91)%N then
            match skip_ws s1 with
            | [] => None
            | c2 :: r =>
                if (c2 =? 93)%N then Some (PList [], r)
                else parse_array n (c2 :: r) []
            end
          else
            match match_constant s with
            | Some r => Some r
            | None =>
                match match_number s with
                | Some (l, r) => Some (numlit_value l, r)
                | None => None
                end
            end
      end
  end

(** The members of an object, from the first key; a repeated key keeps
    its first position and its last value. *)
with parse_object (fuel : nat) (s : text) (acc : dict) {struct fuel}
  : option (pyval * text) :=
  match fuel with
  | O => None
  | S n =>
      match s with
      | [] => None
      | q :: s1 =>
          if (q =? 34)%N then
            match scanstring s1 with
            | None => None
            | Some (key, s2) =>
                match skip_ws s2 with
                | [] => None
                | col :: s3 =>
                    if (col =? 58)%N then
                      match scan_once n (skip_ws s3) with
                      | None => None
                      | Some (v, s4) =>
                          let acc' := dict_set key v acc in
                          match skip_ws s4 with
                          | [] => None
                          | c :: s5 =>
                              if (c =? 125)%N then Some (PDict acc', s5)
                              else if (c =? 44)%N
                              then parse_object n (skip_ws s5) acc'
                              else None
                          end
                      end
                    else None
                end
            end
          else None
      end
  end

(** The elements of an array, from the first one. *)
with parse_array (fuel : nat) (s : text) (acc : list pyval) {struct fuel}
  : option (pyval * text) :=
  match fuel with
  | O => None
  | S n =>
      match scan_once n s with
      | None => None
      | Some (v, s1) =>
          let acc' := acc ++ [v] in
          match skip_ws s1 with
          | [] => None
          | c :: s2 =>
              if (c =? 93)%N then Some (PList acc', s2)
              else if (c =? 44)%N then parse_array n (skip_ws s2) acc'
              else None
          end
      end
  end.

(** [json.loads]: leading and trailing white space is allowed, anything
    else after the value is an error. *)
Definition loads (s : text) : result pyval :=
  match scan_once (S (List.length s)) (skip_ws s) with
  | Some (v, r) =>
      match skip_ws r with
      | [] => Ok v
      | _ :: _ => Raise JSONDecodeError
      end
  | None => Raise JSONDecodeError
  end.

(** ** Files *)

(** What a path names: nothing, a regular file with its text, or
    something that cannot be opened (a directory, a file without
    permission). *)
Inductive node : Type :=
| Missing
| Regular (content : text)
| Denied.

Definition filesystem := pystr -> node.

(** [open(path, "r", encoding="utf-8")] and reading the whole file. *)
Definition open_read (fs : filesystem) (path : pystr) : result text :=
  match fs path with
  | Missing => Raise FileNotFoundError
  | Regular t => Ok t
  | Denied => Raise OSError
  end.

(** [open(path, "w", encoding="utf-8")], writing [t] and closing: the
    file is created or truncated. *)
Definition open_write (fs : filesystem) (path : pystr) (t : text)
  : result filesystem :=
  match fs path with
  | Denied => Raise OSError
  | _ => Ok (fun p => if pystr_eqb p path then Regular t else fs p)
  end.

(** [load_data(file_path)]: the value returned and the lines printed.
    Only [FileNotFoundError] and [json.JSONDecodeError] are caught. *)
Definition load_data (file_path : pystr) (fs : filesystem)
  : result pyval * list message :=
  match (let* t := open_read fs file_path in loads t) with
  | Ok v => (Ok v, [])
  | Raise FileNotFoundError =>
      (Ok (PDict []), [FileNotFoundNotice file_path])
  | Raise JSONDecodeError =>
      (Ok (PDict []), [DecodeErrorNotice file_path])
  | Raise e => (Raise e, [])
  end.

(** [save_data(file_path)]: the outcome and the files after the call. *)
Definition save_data (file_path : pystr) (stock_data : dict)
    (fs : filesystem) : result unit * filesystem :=
  match open_write fs file_path (dumps (PDict stock_data)) with
  | Ok fs' => (Ok tt, fs')
  | Raise e => (Raise e, fs)
  end.

(** ** The report and the demonstration *)

(** The lines [print_data] and [main] print, besides those of
    [remove_item] and [load_data]. *)
Inductive line : Type :=
| Notice (m : message)
| AppleStock (quantity : pyval)
    (* Apple stock: <quantity> *)
| LowItems (items : list pystr)
    (* Low items: <items> *)
| ReportHeader
    (* an empty line, then Items Report: *)
| ReportLine (item : pystr) (quantity : pyval)
    (* <item> -> <quantity> *)
| SafeEval (value : pyval)
    (* Safe eval result: <value> *)
| LogsHeader
    (* an empty line, then Logs: *)
| LogLine (entry : log_entry).

(** [print_data()]: the header, then one line for each item, in the order
    of the dictionary. *)
Definition print_data (stock_data : dict) : list line :=
  ReportHeader :: map (fun kv => ReportLine (fst kv) (snd kv)) stock_data.

(** [stock_data.clear()] followed by [stock_data.update(data)], for a
    dictionary [data]: its entries, in their order.  [update] also takes
    a sequence of pairs and raises on other values; for those the model
    gives no result. *)
Definition clear_update (data : pyval) : option dict :=
  match data with
  | PDict d =>
      Some (fold_left (fun acc kv => dict_set (fst kv) (snd kv) acc) d [])
  | _ => None
  end.

(** [ast.literal_eval("{'note': 'safe eval example'}")] *)
Definition literal_note : pyval :=
  PDict [(str "note", PStr (str "safe eval example"))].

(** [main()]: the outcome, the dictionary, the files and the lines
    printed; the two calls of [datetime.now()] are inputs.  An exception
    ends the run where it is raised.  [None] only if [clear_update] has
    no result. *)
Definition main (now1 now2 : timestamp) (stock_data : dict)
    (fs : filesystem)
  : option (result unit * dict * filesystem * list line) :=
  let path := str "inventory.json" in
  match add_item now1 (PStr (str "apple")) (PInt 10) (Some []) stock_data with
  | (Raise e, s1, _) => Some (Raise e, s1, fs, [])
  | (Ok _, s1, logs1) =>
  match add_item now2 (PStr (str "banana")) (PInt 2) logs1 s1 with
  | (Raise e, s2, _) => Some (Raise e, s2, fs, [])
  | (Ok _, s2, logs2) =>
  match remove_item (PStr (str "apple")) (PInt 3) s2 with
  | (Raise e, s3, out3) => Some (Raise e, s3, fs, map Notice out3)
  | (Ok _, s3, out3) =>
  match remove_item (PStr (str "orange")) (PInt 1) s3 with
  | (Raise e, s4, out4) => Some (Raise e, s4, fs, map Notice (out3 ++ out4))
  | (Ok _, s4, out4) =>
  let out := map Notice (out3 ++ out4) in
  match get_qty (PStr (str "apple")) s4 with
  | Raise e => Some (Raise e, s4, fs, out)
  | Ok q =>
  match check_low_items (PInt 5) s4 with
  | Raise e => Some (Raise e, s4, fs, out ++ [AppleStock q])
  | Ok low =>
  let out := out ++ [AppleStock q; LowItems low] in
  match save_data path s4 fs with
  | (Raise e, fs1) => Some (Raise e, s4, fs1, out)
  | (Ok _, fs1) =>
  match load_data path fs1 with
  | (Raise e, out5) => Some (Raise e, s4, fs1, out ++ map Notice out5)
  | (Ok data, out5) =>
  match clear_update data with
  | None => None
  | Some s5 =>
      Some (Ok tt, s5, fs1,
            out ++ map Notice out5 ++ print_data s5
              ++ [SafeEval literal_note; LogsHeader]
              ++ map LogLine (match logs2 with Some l => l | None => [] end))
  end end end end end end end end end.

(** ** Predicates of the statements *)

(** The quantity [add_item] starts from: the stored one, or 0. *)
Definition prior_quantity (k : pystr) (stock_data : dict) : pyval :=
  match dict_get k stock_data with
  | Some q => q
  | None => PInt 0
  end.

(** [q < t] holds. *)
Definition lt_holds (q t : pyval) : bool :=
  match py_lt q t with
  | Ok true => true
  | _ => false
  end.

(** [q <= 0] holds. *)
Definition nonpositive (q : pyval) : Prop := py_le q (PInt 0) = Ok true.

(** No entry of the dictionary is [<= 0]. *)
Definition all_positive (s : dict) : Prop :=
  forall k q, In (k, q) s -> ~ nonpositive q.






(** The float is a binary64 number: a finite one has a canonical
    mantissa and an exponent in range. *)
Definition float_ok (f : spec_float) : Prop :=
  valid_binary prec emax f = true.

(** A numeric quantity: an [int], a [bool] or a [float]. *)
Definition quantity_ok (v : pyval) : Prop :=
  match v with
  | PBool _ | PInt _ => True
  | PFloat f => float_ok f
  | _ => False
  end.












(** What is left of a scan, with the character [w] after it. *)
Definition then_char {A : Type} (w : N) (x : option (A * text))
  : option (A * text) :=
  match x with
  | Some (a, r) => Some (a, r ++ [w])
  | None => None
  end.

(** A number on one scale: every binary64 number is an integer multiple
    of [2 ^ -1074], the infinities lie beyond the integers, NaN has no
    place. *)
Inductive extended : Type :=
| MinusInf
| Finite (z : Z)
| PlusInf.

Definition extended_compare (a b : extended) : comparison :=
  match a, b with
  | MinusInf, MinusInf => Eq
  | MinusInf, _ => Lt
  | Finite _, MinusInf => Gt
  | Finite x, Finite y => x ?= y
  | Finite _, PlusInf => Lt
  | PlusInf, PlusInf => Eq
  | PlusInf, _ => Gt
  end.

Definition scaled (x : number) : option extended :=
  match x with
  | NumInt z => Some (Finite (z * 2 ^ 1074))
  | NumFloat (S754_zero _) => Some (Finite 0)
  | NumFloat (S754_infinity s) => Some (if s then MinusInf else PlusInf)
  | NumFloat S754_nan => None
  | NumFloat (S754_finite s m e) =>
      Some (Finite ((if s then Zneg m else Zpos m) * 2 ^ (e + 1074)))
  end.

(** A number whose float, if it is one, is a binary64 number. *)
Definition number_ok (x : number) : Prop :=
  match x with
  | NumInt _ => True
  | NumFloat f => valid_binary prec emax f = true
  end.

(** * Properties *)

(** ** Strings and dictionaries *)

Lemma pystr_eqb_refl (s : pystr) : pystr_eqb s s = true.
Proof.
  induction s as [|a s IH]; simpl; [reflexivity|].
  now rewrite N.eqb_refl.
Qed.

Lemma pystr_eqb_eq (s t : pystr) : pystr_eqb s t = true <-> s = t.
Proof.
  split.
  - revert t; induction s as [|a s IH]; intros [|b t]; simpl; try easy.
    intros H; apply andb_true_iff in H as [Hab Hst].
    apply N.eqb_eq in Hab; apply IH in Hst; now subst.
  - intros ->; apply pystr_eqb_refl.
Qed.

Lemma pystr_eqb_neq (s t : pystr) : pystr_eqb s t = false <-> s <> t.
Proof.
  rewrite <- pystr_eqb_eq; destruct (pystr_eqb s t); split; congruence.
Qed.

Lemma pystr_eqb_sym (s t : pystr) : pystr_eqb s t = pystr_eqb t s.
Proof.
  destruct (pystr_eqb s t) eqn:E.
  - apply pystr_eqb_eq in E; subst; symmetry; apply pystr_eqb_refl.
  - symmetry; apply pystr_eqb_neq; apply pystr_eqb_neq in E; congruence.
Qed.

Lemma pystr_compare_refl (s : pystr) : pystr_compare s s = Eq.
Proof.
  induction s as [|a s IH]; simpl; [reflexivity|].
  now rewrite N.compare_refl.
Qed.


Lemma dict_get_None_notin (k : pystr) (d : dict) :
  dict_get k d = None <-> ~ In k (map fst d).
Proof.
  induction d as [|[k' w] d IH]; simpl; [tauto|].
  destruct (pystr_eqb k k') eqn:E.
  - apply pystr_eqb_eq in E; subst; split; [discriminate | tauto].
  - apply pystr_eqb_neq in E; rewrite IH; split; [intros H [?|?]|]; intuition congruence.
Qed.

Lemma dict_wf_get (k : pystr) (v : pyval) (d : dict) :
  dict_wf d -> In (k, v) d -> dict_get k d = Some v.
Proof.
  unfold dict_wf; induction d as [|[k' w] d IH]; simpl; [easy|].
  intros Hnd Hin; inversion Hnd as [|? ? Hk' Hd]; subst.
  destruct Hin as [[= -> ->]|Hin].
  - now rewrite pystr_eqb_refl.
  - destruct (pystr_eqb k k') eqn:E; [|now apply IH].
    apply pystr_eqb_eq in E; subst; exfalso; apply Hk'.
    now apply (in_map fst) in Hin.
Qed.

Lemma dict_get_app_None (k : pystr) (d e : dict) :
  dict_get k d = None -> dict_get k (d ++ e) = dict_get k e.
Proof.
  induction d as [|[k' w] d IH]; simpl; [reflexivity|].
  destruct (pystr_eqb k k'); [discriminate | exact IH].
Qed.

Lemma dict_get_app_Some (k : pystr) (v : pyval) (d e : dict) :
  dict_get k d = Some v -> dict_get k (d ++ e) = Some v.
Proof.
  induction d as [|[k' w] d IH]; simpl; [discriminate|].
  destruct (pystr_eqb k k'); [easy | exact IH].
Qed.

Lemma dict_get_update_same (k : pystr) (v : pyval) (d : dict) :
  dict_get k
    (map (fun kv => if pystr_eqb k (fst kv) then (fst kv, v) else kv) d) =
  match dict_get k d with Some _ => Some v | None => None end.
Proof.
  induction d as [|[k' w] d IH]; simpl; [reflexivity|].
  destruct (pystr_eqb k k') eqn:E; simpl; rewrite E; [reflexivity | exact IH].
Qed.

Lemma dict_get_update_other (k k' : pystr) (v : pyval) (d : dict) :
  k' <> k ->
  dict_get k'
    (map (fun kv => if pystr_eqb k (fst kv) then (fst kv, v) else kv) d) =
  dict_get k' d.
Proof.
  intros Hne; induction d as [|[k0 w] d IH]; simpl; [reflexivity|].
  destruct (pystr_eqb k k0) eqn:E; simpl; rewrite IH; [|reflexivity].
  apply pystr_eqb_eq in E; subst.
  apply pystr_eqb_neq in Hne; now rewrite Hne.
Qed.

Lemma dict_get_set_same (k : pystr) (v : pyval) (d : dict) :
  dict_get k (dict_set k v d) = Some v.
Proof.
  unfold dict_set, dict_mem; destruct (dict_get k d) eqn:E.
  - now rewrite dict_get_update_same, E.
  - rewrite dict_get_app_None by exact E; simpl; now rewrite pystr_eqb_refl.
Qed.

Lemma dict_get_set_other (k k' : pystr) (v : pyval) (d : dict) :
  k' <> k -> dict_get k' (dict_set k v d) = dict_get k' d.
Proof.
  intros Hne; unfold dict_set; destruct (dict_mem k d).
  - now apply dict_get_update_other.
  - destruct (dict_get k' d) eqn:E.
    + now apply dict_get_app_Some.
    + rewrite dict_get_app_None by exact E; simpl.
      apply pystr_eqb_neq in Hne; now rewrite Hne.
Qed.

Lemma dict_get_del_same (k : pystr) (d : dict) :
  dict_get k (dict_del k d) = None.
Proof.
  unfold dict_del; induction d as [|[k' w] d IH]; simpl; [reflexivity|].
  destruct (pystr_eqb k k') eqn:E; simpl; [exact IH | now rewrite E].
Qed.

Lemma dict_get_del_other (k k' : pystr) (d : dict) :
  k' <> k -> dict_get k' (dict_del k d) = dict_get k' d.
Proof.
  intros Hne; unfold dict_del; induction d as [|[k0 w] d IH]; simpl; [reflexivity|].
  destruct (pystr_eqb k k0) eqn:E; simpl; rewrite IH; [|reflexivity].
  apply pystr_eqb_eq in E; subst.
  apply pystr_eqb_neq in Hne; now rewrite Hne.
Qed.

Lemma dict_del_keys (k : pystr) (d : dict) :
  ~ In k (map fst (dict_del k d)).
Proof.
  apply dict_get_None_notin, dict_get_del_same.
Qed.

Lemma dict_del_In (k : pystr) (kv : pystr * pyval) (d : dict) :
  In kv (dict_del k d) <-> In kv d /\ fst kv <> k.
Proof.
  unfold dict_del; rewrite filter_In, negb_true_iff, pystr_eqb_neq.
  intuition congruence.
Qed.

Lemma dict_set_keys_present (k : pystr) (v : pyval) (d : dict) :
  dict_mem k d = true -> map fst (dict_set k v d) = map fst d.
Proof.
  unfold dict_set; intros ->; rewrite map_map; apply map_ext.
  intros [k' w]; simpl; now destruct (pystr_eqb k k').
Qed.

Lemma dict_set_keys_absent (k : pystr) (v : pyval) (d : dict) :
  dict_mem k d = false -> map fst (dict_set k v d) = map fst d ++ [k].
Proof.
  unfold dict_set; intros ->; now rewrite map_app.
Qed.

Lemma dict_set_wf (k : pystr) (v : pyval) (d : dict) :
  dict_wf d -> dict_wf (dict_set k v d).
Proof.
  unfold dict_wf; intros Hwf; destruct (dict_mem k d) eqn:E.
  - now rewrite dict_set_keys_present.
  - rewrite dict_set_keys_absent by exact E.
    apply NoDup_app; [exact Hwf | repeat constructor; easy |].
    intros x Hx [->|[]]; unfold dict_mem in E.
    destruct (dict_get x d) eqn:G; [discriminate|].
    now apply dict_get_None_notin in G.
Qed.


(** ** Adding items *)

Lemma get_qty_str (k : pystr) (s : dict) :
  get_qty (PStr k) s = Ok (prior_quantity k s).
Proof.
  unfold get_qty, get_default, prior_quantity; now destruct (dict_get k s).
Qed.

Lemma get_qty_not_str (item : pyval) (s s' : dict) :
  isinstance_str item = false -> get_qty item s' = get_qty item s.
Proof.
  now destruct item.
Qed.

(** [add_item] by cases. *)
Lemma add_item_eq (now : timestamp) (item qty : pyval)
    (logs : option (list log_entry)) (s : dict) :
  add_item now item qty logs s =
  match item with
  | PStr k =>
      if isinstance_number qty then
        match py_add (prior_quantity k s) qty with
        | Ok total =>
            (Ok tt, dict_set k total s,
             option_map (fun l => l ++ [Added now qty item]) logs)
        | Raise e => (Raise e, s, logs)
        end
      else (Raise ValueError, s, logs)
  | _ => (Raise ValueError, s, logs)
  end.
Proof.
  unfold add_item; destruct item as [| | | |k| |]; try reflexivity.
  destruct (isinstance_number qty); [|reflexivity].
  change (get_default s (PStr k) (PInt 0)) with (get_qty (PStr k) s).
  rewrite get_qty_str; unfold bind.
  destruct (py_add (prior_quantity k s) qty); [|reflexivity].
  now destruct logs.
Qed.

(** What a call that returns normally has done. *)
Lemma add_item_Ok_inv (now : timestamp) (item qty : pyval)
    (logs : option (list log_entry)) (s s' : dict)
    (logs' : option (list log_entry)) :
  add_item now item qty logs s = (Ok tt, s', logs') ->
  exists k total,
    item = PStr k /\ isinstance_number qty = true /\
    py_add (prior_quantity k s) qty = Ok total /\
    s' = dict_set k total s /\
    logs' = option_map (fun l => l ++ [Added now qty item]) logs.
Proof.
  rewrite add_item_eq; destruct item as [| | | |k| |]; try discriminate.
  destruct (isinstance_number qty) eqn:Hq; [|discriminate].
  destruct (py_add (prior_quantity k s) qty) as [total|e] eqn:Ha; [|discriminate].
  intros [= <- <-]; exists k, total; repeat split; assumption.
Qed.



(** C1: after a successful [add_item(item, qty)] with a [str] item,
    [get_qty(item)] is the quantity stored before the call (0 when the
    item was absent) plus [qty], and [get_qty] of every other item is what
    it was. *)
Theorem add_item_get_qty (now : timestamp) (k : pystr) (qty : pyval)
    (logs : option (list log_entry)) (s s' : dict)
    (logs' : option (list log_entry)) :
  add_item now (PStr k) qty logs s = (Ok tt, s', logs') ->
  isinstance_number qty = true /\
  (exists prior total,
      get_qty (PStr k) s = Ok prior /\
      prior = match dict_get k s with Some q => q | None => PInt 0 end /\
      py_add prior qty = Ok total /\
      get_qty (PStr k) s' = Ok total) /\
  (forall other, other <> PStr k -> get_qty other s' = get_qty other s).
Proof.
  intros H; apply add_item_Ok_inv in H
    as (k0 & total & [= <-] & Hq & Ha & -> & _).
  split; [exact Hq|]; split.
  - exists (prior_quantity k s), total; repeat split.
    + apply get_qty_str.
    + exact Ha.
    + rewrite get_qty_str; unfold prior_quantity.
      now rewrite dict_get_set_same.
  - intros other Hne; destruct other as [| | | |k'| |];
      try (now apply get_qty_not_str).
    rewrite !get_qty_str; unfold prior_quantity.
    rewrite dict_get_set_other; [reflexivity | congruence].
Qed.

Lemma add_item_get_qty_witness :
  add_item 0 (PStr (str "apple")) (PInt 3) None
    [(str "apple", PInt 10); (str "banana", PInt 2)] =
    (Ok tt, [(str "apple", PInt 13); (str "banana", PInt 2)], None) /\
  get_qty (PStr (str "apple"))
    [(str "apple", PInt 13); (str "banana", PInt 2)] = Ok (PInt 13) /\
  get_qty (PStr (str "banana"))
    [(str "apple", PInt 13); (str "banana", PInt 2)] = Ok (PInt 2).
Proof.
  assert (H : add_item 0 (PStr (str "apple")) (PInt 3) None
    [(str "apple", PInt 10); (str "banana", PInt 2)] =
    (Ok tt, [(str "apple", PInt 13); (str "banana", PInt 2)], None))
    by reflexivity.
  split; [exact H|].
  destruct (add_item_get_qty _ _ _ _ _ _ _ H)
    as (_ & (prior & total & _ & _ & _ & _) & Hother).
  split; [reflexivity|].
  rewrite (Hother (PStr (str "banana"))); [reflexivity | discriminate].
Defined.

(** The operators raise [TypeError] or [OverflowError] only. *)
Lemma num_arith_raises (iop : Z -> Z -> Z)
    (fop : spec_float -> spec_float -> spec_float) (x y : number) (e : exn) :
  num_arith iop fop x y = Raise e -> e = OverflowError.
Proof.
  unfold num_arith, float_of_int, bind; destruct x, y; try discriminate;
    match goal with
    | |- context [binary_normalize ?p ?m ?z ?x ?b] =>
        destruct (binary_normalize p m z x b)
    end; congruence.
Qed.

Lemma py_add_raises (a b : pyval) (e : exn) :
  py_add a b = Raise e -> e = TypeError \/ e = OverflowError.
Proof.
  unfold py_add, num_add.
  destruct a, b; cbn [as_number]; try (intros [= <-]; now left); try discriminate;
    match goal with
    | |- context [num_arith ?i ?f ?x ?y] =>
        destruct (num_arith i f x y) eqn:E; cbn [bind];
        [discriminate | intros [= <-]; right; now apply num_arith_raises in E]
    end.
Qed.





(** ** Comparisons *)

Lemma py_richcmp_number (op : cmpop) (a b : pyval) (x y : number) :
  as_number a = Some x -> as_number b = Some y ->
  py_richcmp op a b = Ok (cmp_holds op (num_compare x y)).
Proof.
  destruct a, b; simpl; try discriminate; now intros [= <-] [= <-].
Qed.

Lemma isinstance_number_as_number (v : pyval) :
  isinstance_number v = true <-> exists x, as_number v = Some x.
Proof.
  destruct v; simpl; split; try discriminate; eauto;
    intros [x H]; discriminate.
Qed.

(** Comparing with a non-number on either side of a number raises. *)
Lemma py_richcmp_number_total (op : cmpop) (a b : pyval) :
  isinstance_number a = true -> isinstance_number b = true ->
  exists r, py_richcmp op a b = Ok r.
Proof.
  intros Ha Hb.
  apply isinstance_number_as_number in Ha as [x Hx].
  apply isinstance_number_as_number in Hb as [y Hy].
  rewrite (py_richcmp_number op a b x y Hx Hy); eauto.
Qed.

(** Values that are equal are not strictly below one another. *)
Lemma py_eq_not_lt : forall a b : pyval,
  py_eq a b = true -> py_richcmp OpLt a b <> Ok true.
Proof.
  fix IH 1; intros a b; destruct a as [|x|x|x|s|l|d];
    destruct b as [|y|y|y|t|r|e]; simpl; try discriminate;
    try (destruct (Z.b2z x ?= Z.b2z y); simpl; congruence);
    try (destruct (Z.b2z x ?= y); simpl; congruence);
    try (destruct (x ?= Z.b2z y); simpl; congruence);
    try (destruct (x ?= y); simpl; congruence);
    try (destruct (compare_int_float _ _) as [[]|]; simpl; congruence);
    try (destruct (SFcompare _ _) as [[]|]; simpl; congruence).
  - intros H; apply pystr_eqb_eq in H as ->.
    rewrite pystr_compare_refl; simpl; congruence.
  - revert r; induction l as [|x l IHl]; intros [|y r]; simpl;
      try discriminate.
    intros H; apply andb_true_iff in H as [Hxy Hlr].
    rewrite Hxy; now apply IHl.
Qed.

(** ** Listing low items *)

Lemma check_low_items_filter (t : pyval) (s : dict) (l : list pystr) :
  check_low_items t s = Ok l ->
  l = map fst (filter (fun kv => lt_holds (snd kv) t) s).
Proof.
  revert l; induction s as [|[k q] s IH]; simpl; intros l.
  - now intros [= <-].
  - unfold lt_holds; simpl.
    destruct (py_lt q t) as [b|e]; simpl; [|discriminate].
    destruct (check_low_items t s) as [l'|e]; simpl; [|discriminate].
    intros [= <-]; rewrite (IH l' eq_refl); now destruct b.
Qed.

Lemma check_low_items_compared (t : pyval) (s : dict) (l : list pystr) :
  check_low_items t s = Ok l ->
  forall k q, In (k, q) s -> exists b, py_lt q t = Ok b.
Proof.
  revert l; induction s as [|[k0 q0] s IH]; simpl; intros l; [easy|].
  destruct (py_lt q0 t) as [b|e] eqn:E; simpl; [|discriminate].
  destruct (check_low_items t s) as [l'|e]; simpl; [|discriminate].
  intros _ k q [[= <- <-]|Hin]; [eauto | now apply (IH l' eq_refl k q)].
Qed.


(** The names listed are those of the entries strictly below the
    threshold. *)
Lemma check_low_items_mem (t : pyval) (s : dict) (l : list pystr) :
  check_low_items t s = Ok l ->
  forall k, In k l <-> exists q, In (k, q) s /\ py_lt q t = Ok true.
Proof.
  intros H k; rewrite (check_low_items_filter t s l H), in_map_iff; split.
  - intros [[k' q] [Hk Hin]]; simpl in Hk; subst k'.
    apply filter_In in Hin as [Hin Hlt]; exists q; split; [exact Hin|].
    unfold lt_holds in Hlt; simpl in Hlt.
    destruct (py_lt q t) as [[]|]; congruence.
  - intros [q [Hin Hlt]]; exists (k, q); split; [reflexivity|].
    apply filter_In; split; [exact Hin|].
    unfold lt_holds; simpl; now rewrite Hlt.
Qed.

(** C6: [check_low_items(t)] returns the names of exactly the entries
    whose quantity is strictly less than [t], in the order of the
    dictionary; an entry whose quantity equals [t] is not listed. *)
Theorem check_low_items_exact (t : pyval) (s : dict) (l : list pystr) :
  check_low_items t s = Ok l ->
  l = map fst (filter (fun kv => lt_holds (snd kv) t) s) /\
  (forall k, In k l <-> exists q, In (k, q) s /\ py_lt q t = Ok true) /\
  (dict_wf s ->
   forall k q, dict_get k s = Some q -> py_eq q t = true -> ~ In k l).
Proof.
  intros H; pose proof (check_low_items_filter t s l H) as Hl.
  pose proof (check_low_items_mem t s l H) as Hmem.
  split; [exact Hl|]; split; [exact Hmem|].
  intros Hwf k q Hget Heq Hin; apply Hmem in Hin as [q' [Hin Hlt]].
  apply (dict_wf_get k q' s Hwf) in Hin.
  assert (q' = q) by congruence; subst q'.
  now apply (py_eq_not_lt q t Heq).
Qed.

Lemma check_low_items_exact_witness :
  check_low_items (PInt 5)
    [(str "apple", PInt 7); (str "banana", PInt 2); (str "cherry", PInt 5)] =
    Ok [str "banana"] /\
  ~ In (str "cherry") [str "banana"].
Proof.
  assert (H : check_low_items (PInt 5)
    [(str "apple", PInt 7); (str "banana", PInt 2); (str "cherry", PInt 5)] =
    Ok [str "banana"]) by reflexivity.
  split; [exact H|].
  destruct (check_low_items_exact _ _ _ H) as (_ & _ & Hboundary).
  apply (Hboundary) with (q := PInt 5); try reflexivity.
  repeat constructor; simpl; intuition discriminate.
Defined.

(** ** Removing items *)

(** [remove_item] by cases, for a [str] item. *)
Lemma remove_item_eq (k : pystr) (qty : pyval) (s : dict) :
  remove_item (PStr k) qty s =
  match dict_get k s with
  | None => (Ok tt, s, [NotFoundWarning (PStr k)])
  | Some cur =>
      match py_sub cur qty with
      | Raise e => remove_handler (PStr k) e s
      | Ok v =>
          match py_le v (PInt 0) with
          | Raise e => remove_handler (PStr k) e (dict_set k v s)
          | Ok true => (Ok tt, dict_del k (dict_set k v s), [])
          | Ok false => (Ok tt, dict_set k v s, [])
          end
      end
  end.
Proof.
  unfold remove_item, getitem; now destruct (dict_get k s).
Qed.

Lemma remove_item_not_key (item qty : pyval) (s : dict) :
  isinstance_str item = false ->
  remove_item item qty s =
    (Ok tt, s,
     [if hashable item then NotFoundWarning item else InvalidQuantityError]).
Proof.
  now destruct item.
Qed.




Lemma dict_del_set (k : pystr) (v : pyval) (s : dict) :
  dict_del k (dict_set k v s) = dict_del k s.
Proof.
  unfold dict_del, dict_set; destruct (dict_mem k s).
  - induction s as [|[k' w] s IH]; simpl; [reflexivity|].
    destruct (pystr_eqb k k') eqn:E; simpl; rewrite E; simpl; now rewrite IH.
  - rewrite filter_app; simpl; rewrite pystr_eqb_refl; simpl.
    apply app_nil_r.
Qed.

Lemma dict_set_In (k : pystr) (v : pyval) (s : dict) (kv : pystr * pyval) :
  In kv (dict_set k v s) -> kv = (k, v) \/ In kv s.
Proof.
  unfold dict_set; destruct (dict_mem k s).
  - rewrite in_map_iff; intros [[k' w] [Heq Hin]]; simpl in Heq.
    destruct (pystr_eqb k k') eqn:E; subst kv; [|now right].
    apply pystr_eqb_eq in E; subst; now left.
  - rewrite in_app_iff; simpl; intuition.
Qed.

Lemma check_low_items_keys (t : pyval) (s : dict) (l : list pystr) :
  check_low_items t s = Ok l -> forall k, In k l -> In k (map fst s).
Proof.
  intros H k Hin; rewrite (check_low_items_filter t s l H) in Hin.
  apply in_map_iff in Hin as [kv [Hk Hin]]; apply filter_In in Hin as [Hin _].
  rewrite <- Hk; now apply in_map.
Qed.

(** C3: when the stored quantity [q] of [item] minus [qty] is [<= 0],
    [remove_item(item, qty)] deletes the entry: [get_qty(item)] is 0 and
    no [check_low_items(t)] lists [item]. *)
Theorem remove_item_deletes (k : pystr) (q qty d : pyval) (s : dict) :
  dict_get k s = Some q ->
  py_sub q qty = Ok d ->
  py_le d (PInt 0) = Ok true ->
  exists s',
    remove_item (PStr k) qty s = (Ok tt, s', []) /\
    s' = dict_del k s /\
    dict_get k s' = None /\
    get_qty (PStr k) s' = Ok (PInt 0) /\
    (forall t l, check_low_items t s' = Ok l -> ~ In k l).
Proof.
  intros Hget Hsub Hle; exists (dict_del k s).
  rewrite remove_item_eq, Hget, Hsub, Hle, dict_del_set.
  repeat split.
  - apply dict_get_del_same.
  - rewrite get_qty_str; unfold prior_quantity.
    now rewrite dict_get_del_same.
  - intros t l Hl Hin; apply (check_low_items_keys t _ l Hl) in Hin.
    now apply dict_del_keys in Hin.
Qed.

Lemma remove_item_deletes_witness :
  exists s',
    remove_item (PStr (str "banana")) (PInt 5)
      [(str "apple", PInt 7); (str "banana", PInt 2)] = (Ok tt, s', []) /\
    s' = [(str "apple", PInt 7)] /\
    get_qty (PStr (str "banana")) s' = Ok (PInt 0).
Proof.
  destruct (remove_item_deletes (str "banana") (PInt 2) (PInt 5) (PInt (-3))
              [(str "apple", PInt 7); (str "banana", PInt 2)]
              eq_refl eq_refl eq_refl)
    as (s' & Hrun & Hs' & _ & Hqty & _).
  exists s'; repeat split; [exact Hrun | exact Hs' | exact Hqty].
Defined.



(** An unhashable item never reaches the lookup: the [TypeError] of the
    subscript is reported as an invalid quantity. *)
Lemma remove_item_unhashable (item qty : pyval) (s : dict) :
  hashable item = false ->
  remove_item item qty s = (Ok tt, s, [InvalidQuantityError]).
Proof.
  now destruct item.
Qed.

(** An [int] too large for a [float] makes the subtraction raise
    [OverflowError], which [remove_item] does not catch. *)
Lemma remove_item_overflow :
  remove_item (PStr (str "apple")) (PFloat (S754_zero false))
    [(str "apple", PInt (2 ^ 1024))] =
    (Raise OverflowError, [(str "apple", PInt (2 ^ 1024))], []).
Proof. reflexivity. Qed.

(** ** Entries that are zero or negative *)

(** C8, as it is stated, fails: [add_item] has stored a zero, and removing
    from another item leaves that entry in place. *)
Lemma remove_item_keeps_other_zero :
  let s0 : dict := [] in
  let '(_, s1, _) := add_item 0 (PStr (str "apple")) (PInt 0) None s0 in
  let '(_, s2, _) := add_item 1 (PStr (str "banana")) (PInt 5) None s1 in
  let '(r, s3, out) := remove_item (PStr (str "banana")) (PInt 1) s2 in
  r = Ok tt /\ out = [] /\
  s3 = [(str "apple", PInt 0); (str "banana", PInt 4)] /\
  dict_get (str "apple") s3 = Some (PInt 0) /\
  nonpositive (PInt 0).
Proof. vm_compute; repeat split; reflexivity. Qed.

Lemma remove_handler_stock (item : pyval) (e : exn) (s : dict) :
  snd (fst (remove_handler item e s)) = s.
Proof.
  now destruct e.
Qed.

Lemma remove_handler_quiet (item : pyval) (e : exn) (s : dict) :
  fst (fst (remove_handler item e s)) = Ok tt ->
  snd (remove_handler item e s) <> [].
Proof.
  destruct e; simpl; discriminate.
Qed.

(** C8 (as the code has it): after [remove_item(item, qty)] has carried
    out its subtraction, the entry of [item] is gone or its quantity is
    not [<= 0]; the entries of the other items are what they were; hence a
    dictionary without an entry [<= 0] has none after the call, however
    the call ends. *)
Theorem remove_item_no_nonpositive (item qty : pyval) (s : dict) :
  (forall k q,
     item = PStr k ->
     fst (fst (remove_item item qty s)) = Ok tt ->
     snd (remove_item item qty s) = [] ->
     dict_get k (snd (fst (remove_item item qty s))) = Some q ->
     py_le q (PInt 0) = Ok false) /\
  (forall k', PStr k' <> item ->
     dict_get k' (snd (fst (remove_item item qty s))) = dict_get k' s) /\
  (all_positive s -> all_positive (snd (fst (remove_item item qty s)))).
Proof.
  destruct item as [| | | |k| |];
    try (split; [discriminate | split; [reflexivity | exact (fun H => H)]]).
  rewrite remove_item_eq.
  destruct (dict_get k s) as [cur|] eqn:Hget;
    [|split; [discriminate | split; [reflexivity | exact (fun H => H)]]].
  destruct (py_sub cur qty) as [v|e] eqn:Hsub.
  2:{ repeat split.
      - intros k0 q _ Hr Hout; now apply remove_handler_quiet in Hr.
      - intros k' _; now rewrite remove_handler_stock.
      - now rewrite remove_handler_stock. }
  destruct (py_le v (PInt 0)) as [[|]|e] eqn:Hle; cbn [fst snd].
  - repeat split.
    + intros k0 q [= <-] _ _; now rewrite dict_get_del_same.
    + intros k' Hne; rewrite dict_get_del_other, dict_get_set_other;
        congruence.
    + intros Hpos k0 q Hin; apply dict_del_In in Hin as [Hin Hk0].
      apply dict_set_In in Hin as [[= -> ->]|Hin]; [easy|].
      now apply (Hpos k0 q).
  - repeat split.
    + intros k0 q [= <-] _ _; rewrite dict_get_set_same; now intros [= <-].
    + intros k' Hne; rewrite dict_get_set_other; congruence.
    + intros Hpos k0 q Hin.
      apply dict_set_In in Hin as [[= -> ->]|Hin];
        [unfold nonpositive; congruence | now apply (Hpos k0 q)].
  - repeat split.
    + intros k0 q _ Hr Hout; now apply remove_handler_quiet in Hr.
    + intros k' Hne; rewrite remove_handler_stock, dict_get_set_other;
        congruence.
    + intros Hpos k0 q Hin; rewrite remove_handler_stock in Hin.
      apply dict_set_In in Hin as [[= -> ->]|Hin];
        [unfold nonpositive; congruence | now apply (Hpos k0 q)].
Qed.

Lemma remove_item_no_nonpositive_witness :
  all_positive [(str "apple", PInt 10); (str "banana", PInt 2)] /\
  all_positive
    (snd (fst (remove_item (PStr (str "apple")) (PInt 3)
                 [(str "apple", PInt 10); (str "banana", PInt 2)]))) /\
  py_le (PInt 7) (PInt 0) = Ok false.
Proof.
  assert (Hpos : all_positive
                   [(str "apple", PInt 10); (str "banana", PInt 2)]).
  { intros k q [[= <- <-]|[[= <- <-]|[]]]; unfold nonpositive; discriminate. }
  split; [exact Hpos|]; split.
  - exact (proj2 (proj2 (remove_item_no_nonpositive
             (PStr (str "apple")) (PInt 3)
             [(str "apple", PInt 10); (str "banana", PInt 2)])) Hpos).
  - apply (proj1 (remove_item_no_nonpositive
             (PStr (str "apple")) (PInt 3)
             [(str "apple", PInt 10); (str "banana", PInt 2)])
             (str "apple") (PInt 7)); reflexivity.
Defined.

(** ** Decimal digits *)







Lemma digits_of_zero : digits_of 0 = [0%N].
Proof. reflexivity. Qed.


(** ** Reading back a number literal *)








(** ** Reading back a string *)




Section Surrogates.
Variable c : N.
Hypothesis c_astral : (65536 <= c < 1114112)%N.



End Surrogates.



(** ** Decimals that are binary64 numbers *)








Lemma pos_lt_pow2_digits (m : positive) :
  Zpos m < 2 ^ Zpos (digits2_pos m).
Proof.
  induction m as [m IH|m IH|]; cbn [digits2_pos];
    rewrite ?Pos2Z.inj_succ, ?Z.pow_succ_r by lia; lia.
Qed.





(** *** Digit strings *)






(** *** The layout keeps the number *)








(** ** Reading back a quantity *)









(** ** Reading back a dictionary of quantities *)









(** ** The decoder does not run out of fuel *)

(** Every scanner consumes text: what is left is shorter. *)

Lemma skip_ws_length (s : text) :
  (List.length (skip_ws s) <= List.length s)%nat.
Proof.
  induction s as [|c s IH]; simpl; [lia|].
  destruct (is_ws c); simpl; lia.
Qed.

Lemma skip_ws_cons_length (s : text) (c : N) (r : text) :
  skip_ws s = c :: r -> (List.length r < List.length s)%nat.
Proof.
  intros H; pose proof (skip_ws_length s) as L; rewrite H in L.
  simpl in L; lia.
Qed.

Lemma cons_char_Some (c : N) (x : option (pystr * text)) (k : pystr)
    (r : text) :
  cons_char c x = Some (k, r) -> exists k', x = Some (k', r).
Proof.
  destruct x as [[k' r']|]; simpl; [|discriminate].
  intros [= <- <-]; eauto.
Qed.

Lemma scanstring_length_aux (n : nat) : forall (s : text) (k : pystr)
    (r : text),
  (List.length s <= n)%nat ->
  scanstring s = Some (k, r) -> (List.length r < List.length s)%nat.
Proof.
  induction n as [|n IH]; intros s k r Hn H;
    (destruct s as [|c s1]; [discriminate|]); [simpl in Hn; lia|].
  simpl in Hn; cbn [scanstring] in H.
  assert (Hrec : forall s' k', (List.length s' <= List.length s1)%nat ->
            scanstring s' = Some (k', r) ->
            (List.length r < List.length (c :: s1))%nat).
  { intros s' k' Hs' H'.
    assert (L : (List.length r < List.length s')%nat)
      by (apply (IH s' k' r); [lia | exact H']).
    simpl; lia. }
  destruct (c =? 34)%N; [injection H as <- <-; simpl; lia|].
  destruct (c =? 92)%N.
  - destruct s1 as [|e s2]; [discriminate|].
    destruct (e =? 117)%N.
    + destruct s2 as [|a [|b [|c' [|d s3]]]]; try discriminate.
      destruct (hex4_value a b c' d) as [u|]; [|discriminate].
      assert (Hsingle : forall k0, cons_char u (scanstring s3) = Some (k0, r) ->
                (List.length r < List.length (c :: e :: a :: b :: c' :: d :: s3))%nat).
      { intros k0 H0; apply cons_char_Some in H0 as [k' H0].
        apply (Hrec s3 k'); [simpl; lia | exact H0]. }
      destruct (is_high_surrogate u); [|now apply (Hsingle k)].
      destruct s3 as [|b1 [|u1 [|a2 [|b2 [|c2 [|d2 [|x s4]]]]]]];
        try (now apply (Hsingle k)).
      destruct ((b1 =? 92) && (u1 =? 117))%N; [|now apply (Hsingle k)].
      destruct (hex4_value a2 b2 c2 d2) as [u2|]; [|discriminate].
      destruct (is_low_surrogate u2); [|now apply (Hsingle k)].
      apply cons_char_Some in H as [k' H].
      apply (Hrec (x :: s4) k'); [simpl; lia | exact H].
    + destruct (simple_escape e); [|discriminate].
      apply cons_char_Some in H as [k' H].
      apply (Hrec s2 k'); [simpl; lia | exact H].
  - destruct (c <=? 31)%N; [discriminate|].
    apply cons_char_Some in H as [k' H].
    apply (Hrec s1 k'); [lia | exact H].
Qed.

Lemma scanstring_length (s : text) (k : pystr) (r : text) :
  scanstring s = Some (k, r) -> (List.length r < List.length s)%nat.
Proof.
  now apply (scanstring_length_aux (List.length s)).
Qed.

Lemma take_digits_length (s : text) :
  (List.length (snd (take_digits s)) <= List.length s)%nat.
Proof.
  induction s as [|c s IH]; simpl; [lia|].
  destruct (is_digit c); simpl; [|lia].
  destruct (take_digits s); simpl in *; lia.
Qed.

Lemma match_number_length (s : text) (l : numlit) (r : text) :
  match_number s = Some (l, r) -> (List.length r < List.length s)%nat.
Proof.
  unfold match_number.
  assert (Hsign : (List.length (snd (match_sign s)) <= List.length s)%nat).
  { unfold match_sign; destruct s as [|c s]; simpl; [lia|].
    destruct (c =? 45)%N; simpl; lia. }
  destruct (match_sign s) as [neg s1]; cbn [snd] in Hsign.
  assert (Hint : forall ids s2, match_int s1 = Some (ids, s2) ->
            (List.length s2 < List.length s1)%nat).
  { unfold match_int; destruct s1 as [|c s']; [discriminate|]; intros ids s2.
    pose proof (take_digits_length s') as L.
    destruct ((49 <=? c) && (c <=? 57))%N.
    - destruct (take_digits s'); intros [= <- <-]; simpl in *; lia.
    - destruct (c =? 48)%N; [|discriminate].
      intros [= <- <-]; simpl; lia. }
  destruct (match_int s1) as [[ids s2]|]; [|discriminate].
  specialize (Hint ids s2 eq_refl).
  assert (Hfrac : (List.length (snd (match_frac s2)) <= List.length s2)%nat).
  { unfold match_frac; destruct s2 as [|dot [|d s']]; simpl; try lia.
    pose proof (take_digits_length s') as L.
    destruct ((dot =? 46)%N && is_digit d); simpl; [|lia].
    destruct (take_digits s'); simpl in *; lia. }
  destruct (match_frac s2) as [frac s3]; cbn [snd] in Hfrac.
  assert (Hexp : (List.length (snd (match_exp s3)) <= List.length s3)%nat).
  { unfold match_exp; destruct s3 as [|e s']; [simpl; lia|].
    destruct ((e =? 101) || (e =? 69))%N; [|simpl; lia].
    match goal with
    | |- context [let '(eneg, s'') := ?X in _] =>
        destruct X as [eneg s''] eqn:Esg
    end.
    assert (Ls : (List.length s'' <= List.length s')%nat).
    { destruct s' as [|sg t]; [injection Esg as _ <-; lia|].
      destruct (sg =? 45)%N; [injection Esg as _ <-; simpl; lia|].
      destruct (sg =? 43)%N; injection Esg as _ <-; simpl; lia. }
    pose proof (take_digits_length s'') as L.
    destruct (take_digits s'') as [[|d ds] r']; simpl in *; lia. }
  destruct (match_exp s3) as [ex s4]; cbn [snd] in Hexp.
  intros [= <- <-]; lia.
Qed.

Lemma strip_prefix_length (p s r : text) :
  strip_prefix p s = Some r ->
  List.length s = (List.length p + List.length r)%nat.
Proof.
  revert s; induction p as [|a p IH]; intros [|b s]; simpl;
    try discriminate; try (now intros [= <-]).
  destruct (a =? b)%N; [|discriminate].
  intros H; now rewrite (IH s H).
Qed.

Lemma match_constant_length (s : text) (v : pyval) (r : text) :
  match_constant s = Some (v, r) -> (List.length r < List.length s)%nat.
Proof.
  unfold match_constant.
  repeat match goal with
         | |- context [strip_prefix ?p s] =>
             let E := fresh "E" in
             destruct (strip_prefix p s) eqn:E;
             [apply strip_prefix_length in E; intros [= <- <-];
              rewrite E; simpl; lia|]
         end.
  discriminate.
Qed.

(** A scan that succeeds with some fuel leaves a shorter text and
    succeeds with any fuel that covers the characters it consumed. *)
Lemma scan_fuel (m : nat) :
  (forall s v r n,
     scan_once m s = Some (v, r) ->
     (List.length r < List.length s)%nat /\
     ((List.length s <= n + List.length r)%nat ->
      scan_once n s = Some (v, r))) /\
  (forall s acc v r n,
     parse_object m s acc = Some (v, r) ->
     (List.length r < List.length s)%nat /\
     ((List.length s <= n + List.length r)%nat ->
      parse_object n s acc = Some (v, r))) /\
  (forall s acc v r n,
     parse_array m s acc = Some (v, r) ->
     (List.length r < List.length s)%nat /\
     ((List.length s <= n + List.length r)%nat ->
      parse_array n s acc = Some (v, r))).
Proof.
  induction m as [|m (IHs & IHo & IHa)];
    [repeat split; intros; discriminate|].
  split; [|split].
  - intros s v r n H; destruct s as [|c s1]; [discriminate|].
    cbn [scan_once] in H.
    assert (Hdone : (List.length r < List.length (c :: s1))%nat ->
              scan_once (S m) (c :: s1) = Some (v, r) ->
              (forall n', scan_once (S n') (c :: s1) =
                          scan_once (S m) (c :: s1)) ->
              (List.length r < List.length (c :: s1))%nat /\
              ((List.length (c :: s1) <= n + List.length r)%nat ->
               scan_once n (c :: s1) = Some (v, r))).
    { intros L E Hn; split; [exact L|]; intros Hlen.
      destruct n as [|n']; [lia|]; now rewrite Hn. }
    destruct (c =? 34)%N eqn:E34.
    { destruct (scanstring s1) as [[k r']|] eqn:Es; [|discriminate].
      injection H as <- <-; apply scanstring_length in Es as L.
      apply Hdone; [simpl; lia | | intros n'];
        cbn [scan_once]; now rewrite E34, ?Es. }
    destruct (c =? 123)%N eqn:E123.
    { destruct (skip_ws s1) as [|c2 rr] eqn:Ews; [discriminate|].
      apply skip_ws_cons_length in Ews as L.
      destruct (c2 =? 125)%N eqn:E125.
      - injection H as <- <-.
        apply Hdone; [simpl; lia | | intros n'];
          cbn [scan_once]; now rewrite E34, E123, Ews, E125.
      - destruct (IHo _ _ _ _ (Nat.pred n) H) as [L' Hn'].
        split; [simpl in *; lia|]; intros Hlen.
        destruct n as [|n']; [simpl in *; lia|]; cbn [Nat.pred] in *.
        cbn [scan_once]; rewrite E34, E123, Ews, E125.
        apply Hn'; simpl in *; lia. }
    destruct (c =? 91)%N eqn:E91.
    { destruct (skip_ws s1) as [|c2 rr] eqn:Ews; [discriminate|].
      apply skip_ws_cons_length in Ews as L.
      destruct (c2 =? 93)%N eqn:E93.
      - injection H as <- <-.
        apply Hdone; [simpl; lia | | intros n'];
          cbn [scan_once]; now rewrite E34, E123, E91, Ews, E93.
      - destruct (IHa _ _ _ _ (Nat.pred n) H) as [L' Hn'].
        split; [simpl in *; lia|]; intros Hlen.
        destruct n as [|n']; [simpl in *; lia|]; cbn [Nat.pred] in *.
        cbn [scan_once]; rewrite E34, E123, E91, Ews, E93.
        apply Hn'; simpl in *; lia. }
    assert (L : (List.length r < List.length (c :: s1))%nat).
    { destruct (match_constant (c :: s1)) as [[v' r']|] eqn:Ec.
      - injection H as <- <-; now apply match_constant_length in Ec.
      - destruct (match_number (c :: s1)) as [[l r']|] eqn:En; [|discriminate].
        injection H as <- <-; now apply match_number_length in En. }
    apply Hdone; [exact L | | intros n'];
      cbn [scan_once]; now rewrite E34, E123, E91.
  - intros s acc v r n H; destruct s as [|q s1]; [discriminate|].
    cbn [parse_object] in H.
    destruct (q =? 34)%N eqn:Eq; [|discriminate].
    destruct (scanstring s1) as [[key s2]|] eqn:Es; [|discriminate].
    apply scanstring_length in Es as L1.
    destruct (skip_ws s2) as [|col s3] eqn:Ews2; [discriminate|].
    apply skip_ws_cons_length in Ews2 as L2.
    destruct (col =? 58)%N eqn:Ecol; [|discriminate].
    pose proof (skip_ws_length s3) as L3.
    destruct (scan_once m (skip_ws s3)) as [[v0 s4]|] eqn:Ev; [|discriminate].
    destruct (IHs _ _ _ (Nat.pred n) Ev) as [L4 Hv].
    destruct (skip_ws s4) as [|c s5] eqn:Ews4; [discriminate|].
    apply skip_ws_cons_length in Ews4 as L5.
    pose proof (skip_ws_length s5) as L6.
    destruct (c =? 125)%N eqn:E125.
    + injection H as <- <-; split; [simpl; lia|]; intros Hlen.
      destruct n as [|n']; [simpl in *; lia|]; cbn [Nat.pred] in *.
      cbn [parse_object]; rewrite Eq, Es, Ews2, Ecol.
      rewrite Hv by (simpl in *; lia).
      now rewrite Ews4, E125.
    + destruct (c =? 44)%N eqn:E44; [|discriminate].
      destruct (IHo _ _ _ _ (Nat.pred n) H) as [L7 Ho].
      split; [simpl; lia|]; intros Hlen.
      destruct n as [|n']; [simpl in *; lia|]; cbn [Nat.pred] in *.
      cbn [parse_object]; rewrite Eq, Es, Ews2, Ecol.
      rewrite Hv by (simpl in *; lia).
      rewrite Ews4, E125, E44; apply Ho; simpl in *; lia.
  - intros s acc v r n H; cbn [parse_array] in H.
    destruct (scan_once m s) as [[v0 s1]|] eqn:Ev; [|discriminate].
    destruct (IHs _ _ _ (Nat.pred n) Ev) as [L1 Hv].
    destruct (skip_ws s1) as [|c s2] eqn:Ews; [discriminate|].
    apply skip_ws_cons_length in Ews as L2.
    pose proof (skip_ws_length s2) as L3.
    destruct (c =? 93)%N eqn:E93.
    + injection H as <- <-; split; [lia|]; intros Hlen.
      destruct n as [|n']; [lia|]; cbn [Nat.pred] in *.
      cbn [parse_array]; rewrite Hv by (simpl in *; lia).
      now rewrite Ews, E93.
    + destruct (c =? 44)%N eqn:E44; [|discriminate].
      destruct (IHa _ _ _ _ (Nat.pred n) H) as [L4 Ha].
      split; [lia|]; intros Hlen.
      destruct n as [|n']; [lia|]; cbn [Nat.pred] in *.
      cbn [parse_array]; rewrite Hv by (simpl in *; lia).
      rewrite Ews, E93, E44; apply Ha; simpl in *; lia.
Qed.

(** [loads] gives its scanner enough fuel: a text that some amount of
    fuel decodes is decoded. *)
Lemma loads_fuel_enough (m : nat) (s : text) (v : pyval) (r : text) :
  scan_once m (skip_ws s) = Some (v, r) -> skip_ws r = [] -> loads s = Ok v.
Proof.
  intros H Hr; unfold loads.
  destruct (proj1 (scan_fuel m) _ _ _ (S (List.length s)) H) as [_ Hn].
  rewrite Hn, Hr; [reflexivity|].
  pose proof (skip_ws_length s); simpl; lia.
Qed.

(** ** Loading *)

Lemma loads_raises (t : text) (e : exn) :
  loads t = Raise e -> e = JSONDecodeError.
Proof.
  unfold loads; destruct (scan_once _ _) as [[v r]|]; [|now intros [= <-]].
  destruct (skip_ws r); [discriminate | now intros [= <-]].
Qed.



(** [load_data] on a file that is there: the outcome of the decoder
    decides. *)
Lemma load_data_regular (path : pystr) (fs : filesystem) (t : text) :
  fs path = Regular t ->
  load_data path fs =
    match loads t with
    | Ok v => (Ok v, [])
    | Raise FileNotFoundError => (Ok (PDict []), [FileNotFoundNotice path])
    | Raise JSONDecodeError => (Ok (PDict []), [DecodeErrorNotice path])
    | Raise e => (Raise e, [])
    end.
Proof. unfold load_data, open_read; now intros ->. Qed.



(** ** Saving *)





(** NaN is not [==] to NaN, and so neither are two dictionaries that
    hold it. *)
Lemma py_eq_nan (k : pystr) :
  py_eq (PFloat S754_nan) (PFloat S754_nan) = false /\
  py_eq (PDict [(k, PFloat S754_nan)]) (PDict [(k, PFloat S754_nan)]) = false.
Proof.
  split; [reflexivity|].
  cbn [py_eq dict_get List.length Nat.eqb andb]; now rewrite pystr_eqb_refl.
Qed.



(** A [str] can hold the two halves of a surrogate pair as two code
    points.  Such a key is not text; the encoder writes the two escapes
    and the decoder joins them into one character. *)
Lemma loads_dumps_surrogate_pair :
  loads (dumps (PDict [([55357; 56832]%N, PInt 1)])) =
  Ok (PDict [([128512%N], PInt 1)]).
Proof. vm_compute; reflexivity. Qed.

(** ** Zero and negative entries left by [add_item] *)



(** ** The demonstration *)

(** The calls of [main] on an empty inventory: apple is 7, the removal of
    the absent orange is reported, banana alone is low. *)
Example demonstration :
  let '(_, s1, logs1) :=
    add_item 0 (PStr (str "apple")) (PInt 10) (Some []) [] in
  let '(_, s2, logs2) :=
    add_item 1 (PStr (str "banana")) (PInt 2) logs1 s1 in
  let '(_, s3, out3) := remove_item (PStr (str "apple")) (PInt 3) s2 in
  let '(_, s4, out4) := remove_item (PStr (str "orange")) (PInt 1) s3 in
  get_qty (PStr (str "apple")) s4 = Ok (PInt 7) /\
  out3 = [] /\ out4 = [NotFoundWarning (PStr (str "orange"))] /\
  s4 = s3 /\
  check_low_items (PInt 5) s4 = Ok [str "banana"] /\
  logs2 = Some [Added 0 (PInt 10) (PStr (str "apple"));
                Added 1 (PInt 2) (PStr (str "banana"))].
Proof. vm_compute; repeat split; reflexivity. Qed.

(** ** The encoder and the decoder on particular inputs *)

(** [repr] of 0.1, 2.5, 1e22, 1e16, 1e-05, the smallest float and
    0.1 + 0.2. *)
Example floatstr_values :
  floatstr (S754_finite false 7205759403792794 (-56)) = str "0.1" /\
  floatstr (S754_finite false 5629499534213120 (-51)) = str "2.5" /\
  floatstr (S754_finite false 4768371582031250 21) = str "1e+22" /\
  floatstr (S754_finite false 5000000000000000 1) = str "1e+16" /\
  floatstr (S754_finite false 5902958103587057 (-69)) = str "1e-05" /\
  floatstr (S754_finite false 1 (-1074)) = str "5e-324" /\
  floatstr (S754_finite false 5404319552844596 (-54)) =
    str "0.30000000000000004" /\
  floatstr (S754_zero true) = str "-0.0".
Proof. vm_compute; repeat split; reflexivity. Qed.

(** Four spaces a level, one member a line, the key escaped. *)
Example dumps_layout :
  dumps (PDict [(str "apple", PInt 7);
                (str "caf" ++ [233%N], PList [PInt 1; PNone])]) =
  str "{" ++ [10%N]
    ++ str "    " ++ quoted "apple" ++ str ": 7," ++ [10%N]
    ++ str "    " ++ [34%N] ++ str "caf" ++ [92%N] ++ str "u00e9" ++ [34%N]
    ++ str ": [" ++ [10%N]
    ++ str "        1," ++ [10%N]
    ++ str "        null" ++ [10%N]
    ++ str "    ]" ++ [10%N]
    ++ str "}".
Proof. vm_compute; reflexivity. Qed.

(** A repeated key keeps its first position and its last value; a number
    with a leading zero, a trailing comma and a bare word are errors. *)
Example loads_values :
  loads (str "{" ++ quoted "a" ++ str ": 1, " ++ quoted "b" ++ str ": 2, "
           ++ quoted "a" ++ str ": 3}") =
    Ok (PDict [(str "a", PInt 3); (str "b", PInt 2)]) /\
  loads (str " [1e2, -0, 0.5] ") =
    Ok (PList [PFloat (S754_finite false 7036874417766400 (-46)); PInt 0;
               PFloat (S754_finite false 4503599627370496 (-53))]) /\
  loads (str "01") = Raise JSONDecodeError /\
  loads (str "[1,]") = Raise JSONDecodeError /\
  loads (str "apple") = Raise JSONDecodeError /\
  loads (str "") = Raise JSONDecodeError.
Proof. vm_compute; repeat split; reflexivity. Qed.

(** * Further properties *)

(** ** More on the dictionary *)



Lemma dict_set_same (k : pystr) (v : pyval) (s : dict) :
  dict_wf s -> dict_get k s = Some v -> dict_set k v s = s.
Proof.
  intros Hwf Hget; unfold dict_set, dict_mem; rewrite Hget.
  rewrite <- (map_id s) at 2; apply map_ext_in; intros [k' x] Hin; simpl.
  destruct (pystr_eqb k k') eqn:E; [|reflexivity].
  apply pystr_eqb_eq in E; subst k'.
  apply (dict_wf_get k x s Hwf) in Hin; congruence.
Qed.

(** ** What is left after a removal *)

(** When the stored quantity minus [qty] is not [<= 0] (a positive
    number, or NaN), [remove_item] stores the difference and prints
    nothing: the item keeps its place, [get_qty] returns the difference,
    the other entries are what they were. *)
Theorem remove_item_keeps_remainder (k : pystr) (q qty d : pyval) (s : dict) :
  dict_get k s = Some q ->
  py_sub q qty = Ok d ->
  py_le d (PInt 0) = Ok false ->
  remove_item (PStr k) qty s = (Ok tt, dict_set k d s, []) /\
  get_qty (PStr k) (dict_set k d s) = Ok d /\
  map fst (dict_set k d s) = map fst s /\
  (forall k', k' <> k -> dict_get k' (dict_set k d s) = dict_get k' s).
Proof.
  intros Hget Hsub Hle; rewrite remove_item_eq, Hget, Hsub, Hle.
  split; [reflexivity|]; split; [|split].
  - rewrite get_qty_str; unfold prior_quantity; now rewrite dict_get_set_same.
  - apply dict_set_keys_present; unfold dict_mem; now rewrite Hget.
  - intros k' Hne; now apply dict_get_set_other.
Qed.

Lemma remove_item_keeps_remainder_witness :
  remove_item (PStr (str "apple")) (PInt 3)
    [(str "apple", PInt 10); (str "banana", PInt 2)] =
    (Ok tt, [(str "apple", PInt 7); (str "banana", PInt 2)], []) /\
  get_qty (PStr (str "apple"))
    [(str "apple", PInt 7); (str "banana", PInt 2)] = Ok (PInt 7).
Proof.
  destruct (remove_item_keeps_remainder (str "apple") (PInt 10) (PInt 3)
              (PInt 7) [(str "apple", PInt 10); (str "banana", PInt 2)]
              eq_refl eq_refl eq_refl) as (Hrun & Hqty & _).
  split; [exact Hrun | exact Hqty].
Defined.

(** ** The exceptions of [add_item] *)

Lemma py_add_number_TypeError (a b : pyval) :
  isinstance_number b = true ->
  (py_add a b = Raise TypeError <-> isinstance_number a = false).
Proof.
  intros Hb; apply isinstance_number_as_number in Hb as [y Hy].
  destruct a as [|x|x|x|x|x|x]; destruct b; try discriminate;
    cbn [py_add as_number isinstance_number] in *;
    try (split; [reflexivity | reflexivity]);
    (split; [|discriminate]); intros H; exfalso;
    match type of H with
    | bind ?r _ = _ =>
        destruct r as [n|e] eqn:E; cbn [bind] in H; [discriminate|];
        apply num_arith_raises in E; congruence
    end.
Qed.

(** [add_item] raises [TypeError] exactly when the arguments pass the
    type check and the value stored under the item is not a number (the
    sum is not defined); the exceptions it can raise are [ValueError],
    [TypeError] and [OverflowError], the last one from adding an [int]
    too large for a [float] to a [float]. *)
Theorem add_item_TypeError_iff (now : timestamp) (item qty : pyval)
    (logs : option (list log_entry)) (s : dict) :
  (fst (fst (add_item now item qty logs s)) = Raise TypeError <->
   exists k q, item = PStr k /\ isinstance_number qty = true /\
               dict_get k s = Some q /\ isinstance_number q = false) /\
  (forall e, fst (fst (add_item now item qty logs s)) = Raise e ->
     e = ValueError \/ e = TypeError \/ e = OverflowError).
Proof.
  rewrite add_item_eq; split.
  - destruct item as [| | | |k| |];
      try (split; [discriminate | intros (k & q & [=] & _)]).
    destruct (isinstance_number qty) eqn:Hq;
      [|split; [discriminate | intros (k0 & q & _ & [=] & _)]].
    pose proof (py_add_number_TypeError (prior_quantity k s) qty Hq) as Hiff.
    destruct (py_add (prior_quantity k s) qty) as [v|e] eqn:Ha; cbn [fst].
    + split; [discriminate|].
      intros (k0 & q & [= <-] & _ & Hget & Hn); exfalso.
      unfold prior_quantity in Hiff; rewrite Hget in Hiff.
      apply Hiff in Hn; discriminate.
    + split.
      * intros [= ->]; pose proof (proj1 Hiff eq_refl) as Hn.
        unfold prior_quantity in Hn.
        destruct (dict_get k s) as [q|] eqn:Hget; [|discriminate].
        exists k, q; repeat split; assumption.
      * intros (k0 & q & [= <-] & _ & Hget & Hn).
        unfold prior_quantity in Hiff; rewrite Hget in Hiff.
        apply Hiff in Hn; congruence.
  - intros e; destruct item as [| | | |k| |];
      try (intros [= <-]; now left).
    destruct (isinstance_number qty); [|intros [= <-]; now left].
    destruct (py_add (prior_quantity k s) qty) as [v|e'] eqn:Ha; cbn [fst];
      [discriminate|].
    intros [= <-]; right; now apply py_add_raises in Ha.
Qed.

(** ** Order of the items, and the log *)

(** A successful [add_item] leaves every item at its place and puts a
    new item last; the keys stay distinct; the list the caller supplied
    gains exactly one entry, at its end, with the time, the quantity and
    the item of the call. *)
Theorem add_item_order (now : timestamp) (k : pystr) (qty : pyval)
    (logs : option (list log_entry)) (s s' : dict)
    (logs' : option (list log_entry)) :
  add_item now (PStr k) qty logs s = (Ok tt, s', logs') ->
  map fst s' = (if dict_mem k s then map fst s else map fst s ++ [k]) /\
  (dict_wf s -> dict_wf s') /\
  (forall i k' q, k' <> k -> nth_error s i = Some (k', q) ->
                  nth_error s' i = Some (k', q)) /\
  logs' = option_map (fun l => l ++ [Added now qty (PStr k)]) logs.
Proof.
  intros H; apply add_item_Ok_inv in H
    as (k0 & total & [= <-] & Hq & Ha & -> & ->).
  split; [|split; [|split]].
  - destruct (dict_mem k s) eqn:E;
      [now apply dict_set_keys_present | now apply dict_set_keys_absent].
  - apply dict_set_wf.
  - intros i k' q Hne Hnth; unfold dict_set; destruct (dict_mem k s).
    + rewrite nth_error_map, Hnth; simpl.
      destruct (pystr_eqb k k') eqn:E; [|reflexivity].
      apply pystr_eqb_eq in E; congruence.
    + rewrite nth_error_app1; [exact Hnth|].
      apply nth_error_Some; congruence.
  - reflexivity.
Qed.

Lemma add_item_order_witness :
  add_item 5 (PStr (str "cherry")) (PInt 1)
    (Some [Added 4 (PInt 2) (PStr (str "banana"))])
    [(str "apple", PInt 10); (str "banana", PInt 2)] =
    (Ok tt,
     [(str "apple", PInt 10); (str "banana", PInt 2); (str "cherry", PInt 1)],
     Some [Added 4 (PInt 2) (PStr (str "banana"));
           Added 5 (PInt 1) (PStr (str "cherry"))]) /\
  map fst [(str "apple", PInt 10); (str "banana", PInt 2);
           (str "cherry", PInt 1)] =
    [str "apple"; str "banana"; str "cherry"].
Proof.
  assert (H : add_item 5 (PStr (str "cherry")) (PInt 1)
    (Some [Added 4 (PInt 2) (PStr (str "banana"))])
    [(str "apple", PInt 10); (str "banana", PInt 2)] =
    (Ok tt,
     [(str "apple", PInt 10); (str "banana", PInt 2); (str "cherry", PInt 1)],
     Some [Added 4 (PInt 2) (PStr (str "banana"));
           Added 5 (PInt 1) (PStr (str "cherry"))])) by reflexivity.
  split; [exact H|].
  destruct (add_item_order _ _ _ _ _ _ _ H) as (Hkeys & _).
  exact Hkeys.
Defined.

(** ** Adding and removing the same quantity *)






(** ** The four ways [remove_item] ends *)




(** ** When [check_low_items] raises *)

Lemma py_richcmp_raises (op : cmpop) : forall (a b : pyval) (e : exn),
  py_richcmp op a b = Raise e -> e = TypeError.
Proof.
  fix IH 1; intros a b e; destruct a as [|x|x|x|x|l|d];
    destruct b as [|y|y|y|y|r|d']; cbn [py_richcmp as_number];
    try discriminate; try (now intros [= <-]).
  revert r; induction l as [|x l IHl]; intros [|y r]; try discriminate.
  destruct (py_eq x y); [apply IHl | apply IH].
Qed.

Lemma py_lt_number_raises (q t : pyval) :
  isinstance_number t = true ->
  (py_lt q t = Raise TypeError <-> isinstance_number q = false).
Proof.
  intros Ht; destruct (isinstance_number q) eqn:Hq.
  - destruct (py_richcmp_number_total OpLt q t Hq Ht) as [b Hb].
    unfold py_lt; rewrite Hb; split; discriminate.
  - split; [reflexivity | intros _].
    destruct q; try discriminate; destruct t; try discriminate; reflexivity.
Qed.

Lemma check_low_items_Ok_iff (t : pyval) (s : dict) :
  (exists l, check_low_items t s = Ok l) <->
  forall k q, In (k, q) s -> exists b, py_lt q t = Ok b.
Proof.
  split; [intros [l Hl]; now apply (check_low_items_compared t s l)|].
  induction s as [|[k q] s IH]; intros H; [now exists []|].
  destruct (H k q (or_introl eq_refl)) as [b Hb].
  destruct IH as [l Hl]; [intros k' q' Hin; apply (H k' q'); now right|].
  cbn [check_low_items]; rewrite Hb, Hl; cbn [bind]; eauto.
Qed.

Lemma check_low_items_raises (t : pyval) (s : dict) (e : exn) :
  check_low_items t s = Raise e ->
  e = TypeError /\ exists k q, In (k, q) s /\ py_lt q t = Raise TypeError.
Proof.
  induction s as [|[k q] s IH]; cbn [check_low_items]; [discriminate|].
  destruct (py_lt q t) as [b|e'] eqn:Hq; cbn [bind].
  - destruct (check_low_items t s) as [l|e'']; cbn [bind]; [discriminate|].
    intros [= <-]; destruct (IH eq_refl) as (-> & k' & q' & Hin & Hq').
    split; [reflexivity|]; exists k', q'; split; [now right | exact Hq'].
  - intros [= <-]; apply py_richcmp_raises in Hq as E; subst e'.
    split; [reflexivity|]; exists k, q; split; [now left | exact Hq].
Qed.

(** [check_low_items] returns exactly when every stored quantity can be
    compared with the threshold, and otherwise raises [TypeError]: with a
    number as threshold, exactly when some stored quantity is not a
    number.  On the empty dictionary it returns the empty list whatever
    the threshold. *)
Theorem check_low_items_TypeError (t : pyval) (s : dict) :
  ((exists l, check_low_items t s = Ok l) <->
   forall k q, In (k, q) s -> exists b, py_lt q t = Ok b) /\
  (forall e, check_low_items t s = Raise e -> e = TypeError) /\
  (isinstance_number t = true ->
   (check_low_items t s = Raise TypeError <->
    exists k q, In (k, q) s /\ isinstance_number q = false)) /\
  check_low_items t [] = Ok [].
Proof.
  split; [apply check_low_items_Ok_iff|].
  split; [intros e He; now apply check_low_items_raises in He|].
  split; [|reflexivity].
  intros Ht; split.
  - intros H; apply check_low_items_raises in H as (_ & k & q & Hin & Hq).
    exists k, q; split; [exact Hin | now apply (py_lt_number_raises q t Ht)].
  - intros (k & q & Hin & Hq).
    destruct (check_low_items t s) as [l|e] eqn:E.
    + destruct (check_low_items_compared t s l E k q Hin) as [b Hb].
      apply (py_lt_number_raises q t Ht) in Hq; congruence.
    + now apply check_low_items_raises in E as (-> & _).
Qed.

(** A quantity read from a file as a string stops the listing. *)
Example check_low_items_string_quantity :
  check_low_items (PInt 5)
    [(str "apple", PInt 1); (str "pear", PStr (str "many"))] =
    Raise TypeError /\
  check_low_items (PStr (str "x")) [] = Ok [].
Proof. split; reflexivity. Qed.

(** ** Inventories of integers *)










(** ** A quantity that is not a number *)

Lemma nan_arith (qty : pyval) :
  isinstance_number qty = true ->
  (py_add (PFloat S754_nan) qty = Ok (PFloat S754_nan) \/
   py_add (PFloat S754_nan) qty = Raise OverflowError) /\
  (py_sub (PFloat S754_nan) qty = Ok (PFloat S754_nan) \/
   py_sub (PFloat S754_nan) qty = Raise OverflowError).
Proof.
  destruct qty as [|b|z|f| | |]; try discriminate; intros _;
    cbn [py_add py_sub as_number num_add num_sub num_arith];
    try (split; left; reflexivity).
  - unfold float_of_int.
    destruct (binary_normalize prec emax (Z.b2z b) 0 false);
      split; (now left) || (now right).
  - unfold float_of_int.
    destruct (binary_normalize prec emax z 0 false);
      split; (now left) || (now right).
Qed.

(** An item whose quantity is NaN (the sum of two opposite infinities,
    say) keeps it: [add_item] and [remove_item] with a number leave the
    inventory as it is, or raise [OverflowError] for an [int] too large
    for a [float]; [remove_item] never deletes the item, and
    [check_low_items] never lists it, whatever the number taken as
    threshold. *)
Theorem nan_quantity_stays (k : pystr) (qty : pyval) (s : dict) :
  dict_wf s ->
  dict_get k s = Some (PFloat S754_nan) ->
  isinstance_number qty = true ->
  (remove_item (PStr k) qty s = (Ok tt, s, []) \/
   remove_item (PStr k) qty s = (Raise OverflowError, s, [])) /\
  (forall now logs,
     add_item now (PStr k) qty logs s =
       (Ok tt, s, option_map (fun l => l ++ [Added now qty (PStr k)]) logs) \/
     add_item now (PStr k) qty logs s = (Raise OverflowError, s, logs)) /\
  (forall t l, isinstance_number t = true ->
               check_low_items t s = Ok l -> ~ In k l).
Proof.
  intros Hwf Hget Hq.
  destruct (nan_arith qty Hq) as [Hadd Hsub].
  split; [|split].
  - rewrite remove_item_eq, Hget.
    destruct Hsub as [-> | ->]; [left | right; reflexivity].
    cbn [py_le py_richcmp as_number num_compare compare_int_float option_map
         cmp_holds].
    now rewrite (dict_set_same k _ s Hwf Hget).
  - intros now logs; rewrite add_item_eq, Hq.
    unfold prior_quantity; rewrite Hget.
    destruct Hadd as [-> | ->]; [left | right; reflexivity].
    now rewrite (dict_set_same k _ s Hwf Hget).
  - intros t l Ht Hl Hin.
    apply (check_low_items_mem t s l Hl) in Hin as (q & Hin & Hlt).
    apply (dict_wf_get k q s Hwf) in Hin.
    assert (q = PFloat S754_nan) by congruence; subst q.
    destruct t as [|b|z|f| | |]; try discriminate;
      cbn in Hlt; discriminate.
Qed.

Lemma nan_quantity_stays_witness :
  remove_item (PStr (str "apple")) (PInt 100)
    [(str "apple", PFloat S754_nan)] =
    (Ok tt, [(str "apple", PFloat S754_nan)], []) /\
  check_low_items (PFloat (S754_infinity false))
    [(str "apple", PFloat S754_nan)] = Ok [].
Proof.
  destruct (nan_quantity_stays (str "apple") (PInt 100)
              [(str "apple", PFloat S754_nan)])
    as ([Hrem|Hrem] & _ & _).
  - unfold dict_wf; simpl; repeat constructor; simpl; tauto.
  - reflexivity.
  - reflexivity.
  - split; [exact Hrem | reflexivity].
  - discriminate Hrem.
Defined.

(** ** The order of the numbers *)

Lemma extended_compare_opp (a b : extended) :
  extended_compare a b = CompOpp (extended_compare b a).
Proof.
  destruct a, b; try reflexivity; simpl; apply Z.compare_antisym.
Qed.

Lemma compare_scale (x y p : Z) : 0 < p -> (x * p ?= y * p) = (x ?= y).
Proof.
  intros Hp; symmetry; apply Zmult_compare_compat_r; lia.
Qed.

Lemma pos_ge_pow2_digits (m : positive) :
  2 ^ (Zpos (digits2_pos m) - 1) <= Zpos m.
Proof.
  induction m as [m IH|m IH|]; cbn [digits2_pos]; [| |reflexivity];
    rewrite Pos2Z.inj_succ;
    replace (Z.succ (Zpos (digits2_pos m)) - 1)
      with (Z.succ (Zpos (digits2_pos m) - 1)) by lia;
    rewrite Z.pow_succ_r by lia; lia.
Qed.

(** A binary64 number has at most 53 digits, exactly 53 above the
    smallest exponent, and an exponent from [-1074]. *)
Lemma bounded_digits (m : positive) (e : Z) :
  bounded prec emax m e = true ->
  -1074 <= e /\ Zpos m < 2 ^ 53 /\ (-1074 < e -> 2 ^ 52 <= Zpos m).
Proof.
  unfold bounded, canonical_mantissa, fexp, emin, prec, emax; intros H.
  apply andb_true_iff in H as [Hc _]; apply Z.eqb_eq in Hc.
  pose proof (pos_lt_pow2_digits m) as Hlt.
  pose proof (pos_ge_pow2_digits m) as Hge.
  split; [lia|]; split.
  - eapply Z.lt_le_trans; [exact Hlt|]; apply Z.pow_le_mono_r; lia.
  - intros He; replace 52 with (Zpos (digits2_pos m) - 1) by lia.
    exact Hge.
Qed.

Lemma magnitude_lt (m1 m2 : positive) (e1 e2 : Z) :
  bounded prec emax m1 e1 = true -> bounded prec emax m2 e2 = true ->
  e1 < e2 ->
  Zpos m1 * 2 ^ (e1 + 1074) < Zpos m2 * 2 ^ (e2 + 1074).
Proof.
  intros H1 H2 He.
  destruct (bounded_digits m1 e1 H1) as (He1 & Hm1 & _).
  destruct (bounded_digits m2 e2 H2) as (He2 & _ & Hm2).
  specialize (Hm2 ltac:(lia)).
  assert (Hp : 0 < 2 ^ (e1 + 1074)) by (apply Z.pow_pos_nonneg; lia).
  assert (Hq : 2 * 2 ^ (e1 + 1074) <= 2 ^ (e2 + 1074)).
  { rewrite <- Z.pow_succ_r by lia; apply Z.pow_le_mono_r; lia. }
  nia.
Qed.

Lemma magnitude_compare (m1 m2 : positive) (e1 e2 : Z) :
  bounded prec emax m1 e1 = true -> bounded prec emax m2 e2 = true ->
  (Zpos m1 * 2 ^ (e1 + 1074) ?= Zpos m2 * 2 ^ (e2 + 1074)) =
  match e1 ?= e2 with
  | Lt => Lt
  | Gt => Gt
  | Eq => Pos.compare_cont Eq m1 m2
  end.
Proof.
  intros H1 H2; destruct (Z.compare_spec e1 e2) as [->|He|He].
  - destruct (bounded_digits m2 e2 H2) as (He2 & _).
    rewrite compare_scale by (apply Z.pow_pos_nonneg; lia).
    reflexivity.
  - apply Z.compare_lt_iff; now apply magnitude_lt.
  - apply Z.compare_gt_iff; now apply magnitude_lt.
Qed.

Lemma compare_int_float_scaled (z : Z) (f : spec_float) :
  valid_binary prec emax f = true ->
  compare_int_float z f =
  match scaled (NumFloat f) with
  | Some b => Some (extended_compare (Finite (z * 2 ^ 1074)) b)
  | None => None
  end.
Proof.
  destruct f as [s|s| |s m e]; cbn [compare_int_float scaled valid_binary];
    intros Hv.
  - cbn [extended_compare]; f_equal.
    change 0 with (0 * 2 ^ 1074) at 2; now rewrite compare_scale.
  - now destruct s.
  - reflexivity.
  - destruct (bounded_digits m e Hv) as (He & _).
    cbn [extended_compare]; f_equal.
    set (mz := if s then Z.neg m else Z.pos m).
    destruct e as [|p|p].
    + rewrite Z.pow_0_r, Z.mul_1_r; cbn [Z.add].
      now rewrite compare_scale.
    + rewrite Z.pow_add_r, Z.mul_assoc by lia.
      now rewrite compare_scale.
    + replace (2 ^ 1074) with (2 ^ Zpos p * 2 ^ (Zneg p + 1074))
        by (rewrite <- Z.pow_add_r by lia; f_equal; lia).
      rewrite Z.mul_assoc, compare_scale; [reflexivity|].
      apply Z.pow_pos_nonneg; lia.
Qed.

(** Python's comparison of two numbers is the comparison of their
    values. *)
Lemma num_compare_scaled (x y : number) :
  number_ok x -> number_ok y ->
  num_compare x y =
  match scaled x, scaled y with
  | Some a, Some b => Some (extended_compare a b)
  | _, _ => None
  end.
Proof.
  destruct x as [x|f], y as [y|g]; cbn [number_ok num_compare]; intros Hx Hy.
  - cbn [scaled extended_compare]; now rewrite compare_scale.
  - rewrite (compare_int_float_scaled x g Hy); reflexivity.
  - rewrite (compare_int_float_scaled y f Hx).
    change (scaled (NumInt y)) with (Some (Finite (y * 2 ^ 1074))).
    destruct (scaled (NumFloat f)) as [a|]; [|reflexivity].
    cbn [option_map]; now rewrite <- extended_compare_opp.
  - destruct f as [s|s| |s m e], g as [t|t| |t n e'];
      cbn [SFcompare scaled extended_compare valid_binary] in *;
      try reflexivity;
      try (destruct s; reflexivity); try (destruct t; reflexivity);
      try (destruct s, t; reflexivity).
    + destruct (bounded_digits n e' Hy) as (He & _).
      f_equal; destruct t; symmetry;
        [apply Z.compare_gt_iff | apply Z.compare_lt_iff];
        assert (0 < 2 ^ (e' + 1074)) by (apply Z.pow_pos_nonneg; lia); nia.
    + destruct (bounded_digits m e Hx) as (He & _).
      f_equal; destruct s; symmetry;
        [apply Z.compare_lt_iff | apply Z.compare_gt_iff];
        assert (0 < 2 ^ (e + 1074)) by (apply Z.pow_pos_nonneg; lia); nia.
    + destruct (bounded_digits m e Hx) as (He & _).
      destruct (bounded_digits n e' Hy) as (He' & _).
      assert (0 < 2 ^ (e + 1074)) by (apply Z.pow_pos_nonneg; lia).
      assert (0 < 2 ^ (e' + 1074)) by (apply Z.pow_pos_nonneg; lia).
      f_equal; destruct s, t.
      * rewrite <- !Pos2Z.opp_pos, !Z.mul_opp_l, Z.compare_opp.
        rewrite (magnitude_compare n m e' e Hy Hx).
        rewrite (Z.compare_antisym e e'), (Pos.compare_cont_antisym m n Eq).
        destruct (e ?= e'); cbn [CompOpp]; reflexivity.
      * symmetry; apply Z.compare_lt_iff; nia.
      * symmetry; apply Z.compare_gt_iff; nia.
      * symmetry; apply magnitude_compare; assumption.
Qed.

Lemma extended_lt_le_trans (a b c : extended) :
  extended_compare a b = Lt ->
  extended_compare b c <> Gt ->
  extended_compare a c = Lt.
Proof.
  destruct a as [|x|], b as [|y|], c as [|z|]; cbn [extended_compare];
    intros Hxy Hyz; try reflexivity; try discriminate; try congruence.
  change (x < y) in Hxy; change (x < z).
  destruct (Z.lt_ge_cases z y) as [Hzy|Hzy]; [|lia].
  exfalso; apply Hyz; now apply Z.compare_gt_iff.
Qed.

Lemma num_lt_le_trans (x y z : number) :
  number_ok x -> number_ok y -> number_ok z ->
  cmp_holds OpLt (num_compare x y) = true ->
  cmp_holds OpLe (num_compare y z) = true ->
  cmp_holds OpLt (num_compare x z) = true.
Proof.
  intros Hx Hy Hz.
  rewrite !num_compare_scaled by assumption.
  destruct (scaled x) as [a|], (scaled y) as [b|], (scaled z) as [c|];
    try discriminate.
  intros Hab Hbc.
  rewrite (extended_lt_le_trans a b c); [reflexivity | |].
  - now destruct (extended_compare a b).
  - now destruct (extended_compare b c).
Qed.

Lemma quantity_ok_number (v : pyval) :
  quantity_ok v -> exists x, as_number v = Some x /\ number_ok x.
Proof.
  destruct v; cbn [quantity_ok]; try easy; eexists; split;
    try reflexivity; easy.
Qed.

(** Raising the threshold never takes an item off the list: with
    numbers as quantities and thresholds, every item [check_low_items]
    lists for a threshold is listed for any threshold that is not
    smaller. *)
Theorem check_low_items_monotone (t1 t2 : pyval) (s : dict)
    (l1 l2 : list pystr) :
  (forall k q, In (k, q) s -> quantity_ok q) ->
  quantity_ok t1 -> quantity_ok t2 ->
  py_le t1 t2 = Ok true ->
  check_low_items t1 s = Ok l1 ->
  check_low_items t2 s = Ok l2 ->
  forall k, In k l1 -> In k l2.
Proof.
  intros Hs Ht1 Ht2 Hle H1 H2 k Hin.
  apply (check_low_items_mem t1 s l1 H1) in Hin as (q & Hq & Hlt).
  apply (check_low_items_mem t2 s l2 H2); exists q; split; [exact Hq|].
  destruct (quantity_ok_number q (Hs k q Hq)) as (x & Ex & Hx).
  destruct (quantity_ok_number t1 Ht1) as (y & Ey & Hy).
  destruct (quantity_ok_number t2 Ht2) as (z & Ez & Hz).
  unfold py_lt, py_le in *.
  rewrite (py_richcmp_number OpLt q t1 x y Ex Ey) in Hlt.
  rewrite (py_richcmp_number OpLe t1 t2 y z Ey Ez) in Hle.
  rewrite (py_richcmp_number OpLt q t2 x z Ex Ez).
  injection Hlt as Hlt; injection Hle as Hle.
  now rewrite (num_lt_le_trans x y z Hx Hy Hz Hlt Hle).
Qed.

Lemma check_low_items_monotone_witness :
  In (str "banana") [str "banana"; str "cherry"].
Proof.
  apply (check_low_items_monotone (PInt 3)
           (PFloat (S754_finite false 5629499534213120 (-50)))
           [(str "apple", PInt 7); (str "banana", PInt 2);
            (str "cherry", PFloat (S754_finite false 5066549580791808 (-50)))]
           [str "banana"] [str "banana"; str "cherry"]).
  - intros k q [[= <- <-]|[[= <- <-]|[[= <- <-]|[]]]]; vm_compute; auto.
  - exact I.
  - reflexivity.
  - reflexivity.
  - reflexivity.
  - reflexivity.
  - now left.
Defined.

(** ** The characters the encoder writes *)



















(** ** Reading back any value *)
























(** ** Saving and loading any inventory *)





(** [1], [1.0] and [True] are written differently. *)
Example dumps_one :
  dumps (PDict [(str "a", PInt 1)]) <> dumps (PDict [(str "a", PBool true)]) /\
  dumps (PDict [(str "a", PInt 1)]) <>
  dumps (PDict [(str "a", PFloat (S754_finite false 4503599627370496 (-52)))]).
Proof. split; vm_compute; discriminate. Qed.

(** ** A key that appears more than once in the file *)






(** ** White space around the value *)

Lemma is_ws_cases (w : N) :
  is_ws w = true -> (w = 32 \/ w = 9 \/ w = 10 \/ w = 13)%N.
Proof.
  unfold is_ws; intros H.
  repeat (apply orb_true_iff in H as [H|H]);
    apply N.eqb_eq in H; tauto.
Qed.

Ltac ws_cases H :=
  apply is_ws_cases in H;
  destruct H as [->|[->|[->| ->]]].

Lemma skip_ws_snoc (w : N) (s : text) :
  is_ws w = true ->
  skip_ws (s ++ [w]) =
  match skip_ws s with
  | [] => []
  | c :: r => c :: r ++ [w]
  end.
Proof.
  intros Hw; induction s as [|c s IH]; cbn [app skip_ws].
  - now rewrite Hw.
  - destruct (is_ws c); [exact IH | reflexivity].
Qed.

Lemma cons_char_then (c w : N) (x : option (pystr * text)) :
  cons_char c (then_char w x) = then_char w (cons_char c x).
Proof.
  now destruct x as [[k r]|].
Qed.

Lemma hex_value_ws (w : N) : is_ws w = true -> hex_value w = None.
Proof.
  intros H; ws_cases H; reflexivity.
Qed.

Lemma hex4_value_ws (a b c w : N) :
  is_ws w = true -> hex4_value a b c w = None.
Proof.
  intros H; unfold hex4_value; rewrite (hex_value_ws w H).
  destruct (hex_value a), (hex_value b), (hex_value c); reflexivity.
Qed.

Lemma scanstring_ws (w : N) : is_ws w = true -> scanstring [w] = None.
Proof.
  intros H; ws_cases H; reflexivity.
Qed.

Lemma scanstring_low_alone (a b c d u : N) :
  hex4_value a b c d = Some u -> is_low_surrogate u = true ->
  scanstring [92; 117; a; b; c; d]%N = None.
Proof.
  intros Hu Hlow; cbn [scanstring N.eqb Pos.eqb]; rewrite Hu.
  destruct (is_high_surrogate u); reflexivity.
Qed.

Lemma scanstring_snoc_aux (w : N) (n : nat) :
  is_ws w = true ->
  forall s : text, (List.length s <= n)%nat ->
  scanstring (s ++ [w]) = then_char w (scanstring s).
Proof.
  intros Hw; induction n as [|n IH]; intros s Hn.
  { destruct s; [now apply scanstring_ws | simpl in Hn; lia]. }
  destruct s as [|c s1]; [now apply scanstring_ws|].
  cbn [List.length] in Hn.
  assert (Hrec : forall c0 s', (List.length s' <= List.length s1)%nat ->
            cons_char c0 (scanstring (s' ++ [w])) =
            then_char w (cons_char c0 (scanstring s'))).
  { intros c0 s' Hs'; rewrite IH by lia; apply cons_char_then. }
  cbn [app scanstring].
  destruct (c =? 34)%N; [reflexivity|].
  destruct (c =? 92)%N.
  2:{ destruct (c <=? 31)%N; [reflexivity | now apply Hrec]. }
  destruct s1 as [|e s2].
  { cbn [app]; pose proof Hw as Hw'; ws_cases Hw'; reflexivity. }
  cbn [app List.length] in *.
  destruct (e =? 117)%N.
  2:{ destruct (simple_escape e); [apply Hrec; lia | reflexivity]. }
  destruct s2 as [|a [|b [|c' [|d s3]]]]; cbn [app]; try reflexivity.
  { now rewrite hex4_value_ws. }
  cbn [List.length] in *.
  destruct (hex4_value a b c' d) as [u|]; [|reflexivity].
  destruct (is_high_surrogate u); [|apply Hrec; lia].
  destruct s3 as [|b1 [|u1 [|a2 [|b2 [|c2 [|d2 [|x s4]]]]]]];
    cbn [app List.length] in *;
    try (apply (Hrec u []); simpl; lia);
    try (apply (Hrec u [b1]); simpl; lia);
    try (apply (Hrec u [b1; u1]); simpl; lia);
    try (apply (Hrec u [b1; u1; a2]); simpl; lia);
    try (apply (Hrec u [b1; u1; a2; b2]); simpl; lia);
    try (apply (Hrec u [b1; u1; a2; b2; c2]); simpl; lia).
  - (* six characters after the first escape *)
    destruct ((b1 =? 92) && (u1 =? 117))%N eqn:Eb.
    + apply andb_true_iff in Eb as [E1 E2].
      apply N.eqb_eq in E1; apply N.eqb_eq in E2; subst b1 u1.
      destruct (hex4_value a2 b2 c2 d2) as [u2|] eqn:Eu2.
      * destruct (is_low_surrogate u2) eqn:El.
        -- rewrite (scanstring_ws w Hw), (scanstring_low_alone _ _ _ _ u2 Eu2 El).
           reflexivity.
        -- apply (Hrec u [92; 117; a2; b2; c2; d2]%N); simpl; lia.
      * cbn [scanstring N.eqb Pos.eqb]; now rewrite Eu2.
    + apply (Hrec u [b1; u1; a2; b2; c2; d2]); simpl; lia.
  - destruct ((b1 =? 92) && (u1 =? 117))%N;
      [|apply (Hrec u (b1 :: u1 :: a2 :: b2 :: c2 :: d2 :: x :: s4)); simpl; lia].
    destruct (hex4_value a2 b2 c2 d2) as [u2|]; [|reflexivity].
    destruct (is_low_surrogate u2);
      [apply (Hrec _ (x :: s4)); simpl; lia
      |apply (Hrec u (b1 :: u1 :: a2 :: b2 :: c2 :: d2 :: x :: s4)); simpl; lia].
Qed.

Lemma scanstring_snoc (w : N) (s : text) :
  is_ws w = true -> scanstring (s ++ [w]) = then_char w (scanstring s).
Proof.
  intros Hw; now apply (scanstring_snoc_aux w (List.length s)).
Qed.

Lemma is_digit_ws (w : N) : is_ws w = true -> is_digit w = false.
Proof.
  intros H; ws_cases H; reflexivity.
Qed.

Lemma take_digits_snoc (w : N) (s : text) :
  is_ws w = true ->
  take_digits (s ++ [w]) =
  (fst (take_digits s), snd (take_digits s) ++ [w]).
Proof.
  intros Hw; induction s as [|c s IH]; cbn [app take_digits].
  - now rewrite (is_digit_ws w Hw).
  - destruct (is_digit c); [|reflexivity].
    rewrite IH; now destruct (take_digits s).
Qed.

Lemma match_int_snoc (w : N) (s : text) :
  is_ws w = true -> match_int (s ++ [w]) = then_char w (match_int s).
Proof.
  intros Hw; destruct s as [|c s]; cbn [app match_int].
  - pose proof Hw as Hw'; ws_cases Hw'; reflexivity.
  - destruct ((49 <=? c) && (c <=? 57))%N.
    + rewrite (take_digits_snoc w s Hw); now destruct (take_digits s).
    + now destruct (c =? 48)%N.
Qed.

Lemma match_frac_snoc (w : N) (s : text) :
  is_ws w = true ->
  match_frac (s ++ [w]) = (fst (match_frac s), snd (match_frac s) ++ [w]).
Proof.
  intros Hw; destruct s as [|dot [|d s]]; cbn [app match_frac].
  - reflexivity.
  - rewrite (is_digit_ws w Hw), andb_false_r; reflexivity.
  - destruct ((dot =? 46)%N && is_digit d); [|reflexivity].
    rewrite (take_digits_snoc w s Hw); now destruct (take_digits s).
Qed.

Lemma match_exp_snoc (w : N) (s : text) :
  is_ws w = true ->
  match_exp (s ++ [w]) = (fst (match_exp s), snd (match_exp s) ++ [w]).
Proof.
  intros Hw; destruct s as [|e s]; cbn [app match_exp];
    [pose proof Hw as Hw'; ws_cases Hw'; reflexivity|].
  destruct ((e =? 101) || (e =? 69))%N; [|reflexivity].
  destruct s as [|sg t]; cbn [app].
  - pose proof Hw as Hw'; ws_cases Hw'; reflexivity.
  - destruct (sg =? 45)%N; [|destruct (sg =? 43)%N];
      try (rewrite (take_digits_snoc w t Hw);
           destruct (take_digits t) as [[|d ds] r]; reflexivity).
    rewrite (app_comm_cons t [w] sg), (take_digits_snoc w (sg :: t) Hw).
    destruct (take_digits (sg :: t)) as [[|d ds] r]; reflexivity.
Qed.

Lemma match_number_snoc (w : N) (s : text) :
  is_ws w = true -> match_number (s ++ [w]) = then_char w (match_number s).
Proof.
  intros Hw; unfold match_number.
  assert (Hsign : match_sign (s ++ [w]) =
                  (fst (match_sign s), snd (match_sign s) ++ [w])).
  { destruct s as [|c s]; cbn [app match_sign].
    - pose proof Hw as Hw'; ws_cases Hw'; reflexivity.
    - now destruct (c =? 45)%N. }
  rewrite Hsign; destruct (match_sign s) as [neg s1]; cbn [fst snd].
  rewrite (match_int_snoc w s1 Hw).
  destruct (match_int s1) as [[ids s2]|]; [|reflexivity]; cbn [then_char].
  rewrite (match_frac_snoc w s2 Hw).
  destruct (match_frac s2) as [frac s3]; cbn [fst snd].
  rewrite (match_exp_snoc w s3 Hw).
  destruct (match_exp s3) as [ex s4]; reflexivity.
Qed.

Lemma strip_prefix_snoc (w : N) (p : text) : forall s : text,
  ~ In w p ->
  strip_prefix p (s ++ [w]) =
  match strip_prefix p s with
  | Some r => Some (r ++ [w])
  | None => None
  end.
Proof.
  induction p as [|a p IH]; intros s Hp; [reflexivity|].
  destruct s as [|b s]; cbn [app strip_prefix].
  - destruct (N.eqb_spec a w) as [->|]; [|reflexivity].
    exfalso; apply Hp; now left.
  - destruct (a =? b)%N; [|reflexivity].
    apply IH; intros H; apply Hp; now right.
Qed.

Lemma match_constant_snoc (w : N) (s : text) :
  is_ws w = true -> match_constant (s ++ [w]) = then_char w (match_constant s).
Proof.
  intros Hw; unfold match_constant.
  assert (Hp : forall p, In p [str "null"; str "true"; str "false"; str "NaN";
                               str "Infinity"; str "-Infinity"] ->
               ~ In w p).
  { intros p Hp Hin; pose proof Hw as Hw'; ws_cases Hw';
      repeat (destruct Hp as [<-|Hp];
              [vm_compute in Hin; intuition discriminate|]);
      destruct Hp. }
  rewrite !strip_prefix_snoc by (apply Hp; simpl; tauto).
  repeat match goal with
         | |- context [strip_prefix ?p s] =>
             destruct (strip_prefix p s); [reflexivity|]
         end.
  reflexivity.
Qed.

Lemma scan_once_nil (n : nat) : scan_once n [] = None.
Proof. now destruct n. Qed.

Lemma parse_object_nil (n : nat) (acc : dict) : parse_object n [] acc = None.
Proof. now destruct n. Qed.

Lemma parse_array_nil (n : nat) (acc : list pyval) :
  parse_array n [] acc = None.
Proof.
  destruct n as [|n]; [reflexivity|]; cbn [parse_array].
  now rewrite scan_once_nil.
Qed.

(** A scan of a text followed by one white space character does what
    the scan of the text does, and leaves that character too. *)
Lemma scan_snoc (w : N) (n : nat) :
  is_ws w = true ->
  (forall s, s <> [] ->
     scan_once n (s ++ [w]) = then_char w (scan_once n s)) /\
  (forall s acc, s <> [] ->
     parse_object n (s ++ [w]) acc = then_char w (parse_object n s acc)) /\
  (forall s acc, s <> [] ->
     parse_array n (s ++ [w]) acc = then_char w (parse_array n s acc)).
Proof.
  intros Hw; induction n as [|n (IHs & IHo & IHa)];
    [repeat split; intros; reflexivity|].
  assert (IHs' : forall s,
            scan_once n (skip_ws (s ++ [w])) =
            then_char w (scan_once n (skip_ws s))).
  { intros s; rewrite (skip_ws_snoc w s Hw).
    destruct (skip_ws s) as [|c r]; [now rewrite scan_once_nil|].
    rewrite app_comm_cons; now apply IHs. }
  assert (IHo' : forall s acc,
            parse_object n (skip_ws (s ++ [w])) acc =
            then_char w (parse_object n (skip_ws s) acc)).
  { intros s acc; rewrite (skip_ws_snoc w s Hw).
    destruct (skip_ws s) as [|c r]; [now rewrite parse_object_nil|].
    rewrite app_comm_cons; now apply IHo. }
  assert (IHa' : forall s acc,
            parse_array n (skip_ws (s ++ [w])) acc =
            then_char w (parse_array n (skip_ws s) acc)).
  { intros s acc; rewrite (skip_ws_snoc w s Hw).
    destruct (skip_ws s) as [|c r]; [now rewrite parse_array_nil|].
    rewrite app_comm_cons; now apply IHa. }
  split; [|split].
  - intros [|c s1] Hs; [congruence|]; clear Hs.
    rewrite <- app_comm_cons; cbn [scan_once].
    destruct (c =? 34)%N.
    { rewrite (scanstring_snoc w s1 Hw).
      now destruct (scanstring s1) as [[k r]|]. }
    destruct (c =? 123)%N.
    { rewrite (skip_ws_snoc w s1 Hw).
      destruct (skip_ws s1) as [|c2 r]; [reflexivity|].
      destruct (c2 =? 125)%N; [reflexivity|].
      rewrite app_comm_cons; now apply IHo. }
    destruct (c =? 91)%N.
    { rewrite (skip_ws_snoc w s1 Hw).
      destruct (skip_ws s1) as [|c2 r]; [reflexivity|].
      destruct (c2 =? 93)%N; [reflexivity|].
      rewrite app_comm_cons; now apply IHa. }
    rewrite app_comm_cons, (match_constant_snoc w (c :: s1) Hw).
    destruct (match_constant (c :: s1)) as [[v r]|]; [reflexivity|].
    cbn [then_char]; rewrite (match_number_snoc w (c :: s1) Hw).
    now destruct (match_number (c :: s1)) as [[l r]|].
  - intros [|q s1] acc Hs; [congruence|]; clear Hs.
    rewrite <- app_comm_cons; cbn [parse_object].
    destruct (q =? 34)%N; [|reflexivity].
    rewrite (scanstring_snoc w s1 Hw).
    destruct (scanstring s1) as [[key s2]|]; [|reflexivity]; cbn [then_char].
    rewrite (skip_ws_snoc w s2 Hw).
    destruct (skip_ws s2) as [|col s3]; [reflexivity|].
    destruct (col =? 58)%N; [|reflexivity].
    rewrite IHs'.
    destruct (scan_once n (skip_ws s3)) as [[v s4]|]; [|reflexivity].
    cbn [then_char]; rewrite (skip_ws_snoc w s4 Hw).
    destruct (skip_ws s4) as [|c s5]; [reflexivity|].
    destruct (c =? 125)%N; [reflexivity|].
    destruct (c =? 44)%N; [apply IHo' | reflexivity].
  - intros s acc Hs; cbn [parse_array].
    rewrite (IHs s Hs).
    destruct (scan_once n s) as [[v s1]|]; [|reflexivity].
    cbn [then_char]; rewrite (skip_ws_snoc w s1 Hw).
    destruct (skip_ws s1) as [|c s2]; [reflexivity|].
    destruct (c =? 93)%N; [reflexivity|].
    destruct (c =? 44)%N; [apply IHa' | reflexivity].
Qed.

(** The result of a scan does not depend on the fuel, once there is
    enough for the text. *)
Lemma scan_once_fuel (n m : nat) (s : text) :
  (List.length s <= n)%nat -> (List.length s <= m)%nat ->
  scan_once n s = scan_once m s.
Proof.
  intros Hn Hm.
  destruct (scan_once n s) as [[v r]|] eqn:En.
  - destruct (proj1 (scan_fuel n) _ _ _ m En) as [_ H]; symmetry; apply H; lia.
  - destruct (scan_once m s) as [[v r]|] eqn:Em; [|reflexivity].
    destruct (proj1 (scan_fuel m) _ _ _ n Em) as [_ H].
    rewrite H in En; [discriminate | lia].
Qed.

Lemma loads_snoc (w : N) (t : text) :
  is_ws w = true -> loads (t ++ [w]) = loads t.
Proof.
  intros Hw; unfold loads; rewrite (skip_ws_snoc w t Hw).
  pose proof (skip_ws_length t) as Hlen.
  destruct (skip_ws t) as [|c r] eqn:E; [now rewrite !scan_once_nil|].
  rewrite app_comm_cons.
  rewrite (proj1 (scan_snoc w _ Hw)) by discriminate.
  rewrite (scan_once_fuel (S (List.length (t ++ [w]))) (S (List.length t)))
    by (rewrite ?length_app; simpl in *; lia).
  destruct (scan_once (S (List.length t)) (c :: r)) as [[v r']|];
    [|reflexivity].
  cbn [then_char]; rewrite (skip_ws_snoc w r' Hw).
  now destruct (skip_ws r').
Qed.

Lemma loads_ws_after (ws : text) : forall t : text,
  forallb is_ws ws = true -> loads (t ++ ws) = loads t.
Proof.
  induction ws as [|w ws IH]; intros t Hws; [now rewrite app_nil_r|].
  cbn [forallb] in Hws; apply andb_true_iff in Hws as [Hw Hws].
  change (w :: ws) with ([w] ++ ws); rewrite app_assoc.
  now rewrite (IH (t ++ [w]) Hws), (loads_snoc w t Hw).
Qed.

Lemma skip_ws_ws_before (ws t : text) :
  forallb is_ws ws = true -> skip_ws (ws ++ t) = skip_ws t.
Proof.
  induction ws as [|w ws IH]; intros Hws; [reflexivity|].
  cbn [forallb] in Hws; apply andb_true_iff in Hws as [Hw Hws].
  cbn [app skip_ws]; rewrite Hw; now apply IH.
Qed.

Lemma loads_ws_before (ws t : text) :
  forallb is_ws ws = true -> loads (ws ++ t) = loads t.
Proof.
  intros Hws; unfold loads; rewrite (skip_ws_ws_before ws t Hws).
  pose proof (skip_ws_length t) as Hlen.
  rewrite (scan_once_fuel (S (List.length (ws ++ t))) (S (List.length t)))
    by (rewrite ?length_app; lia).
  reflexivity.
Qed.

(** [load_data] does not see the white space (spaces, tabs, line feeds,
    carriage returns) before and after the JSON value of a file: the
    value returned, or the decoding error reported, is the one of the
    file without it. *)
Theorem load_data_white_space (path : pystr) (fs1 fs2 : filesystem)
    (before after t : text) :
  forallb is_ws before = true ->
  forallb is_ws after = true ->
  fs1 path = Regular t ->
  fs2 path = Regular (before ++ t ++ after) ->
  load_data path fs2 = load_data path fs1.
Proof.
  intros Hb Ha H1 H2.
  rewrite (load_data_regular _ _ _ H1), (load_data_regular _ _ _ H2).
  now rewrite (loads_ws_before before _ Hb), (loads_ws_after after t Ha).
Qed.

Lemma load_data_white_space_witness :
  load_data (str "a.json")
    (fun _ => Regular ([32; 10]%N ++ str "{}" ++ [13; 10; 9]%N)) =
    (Ok (PDict []), []).
Proof.
  rewrite (load_data_white_space (str "a.json")
             (fun _ => Regular (str "{}"))
             (fun _ => Regular ([32; 10]%N ++ str "{}" ++ [13; 10; 9]%N))
             [32; 10]%N [13; 10; 9]%N (str "{}"));
    reflexivity.
Defined.

(** ** The report *)



(** ** A run of [main] *)














(** What [load_data] reads from a file [save_data] has written is a
    dictionary, so [main] always has a result. *)
Lemma parse_object_dict (n : nat) : forall (s : text) (acc : dict)
    (v : pyval) (r : text),
  parse_object n s acc = Some (v, r) -> exists d, v = PDict d.
Proof.
  induction n as [|n IH]; intros s acc v r; [discriminate|].
  cbn [parse_object]; destruct s as [|q s1]; [discriminate|].
  destruct (q =? 34)%N; [|discriminate].
  destruct (scanstring s1) as [[key s2]|]; [|discriminate].
  destruct (skip_ws s2) as [|col s3]; [discriminate|].
  destruct (col =? 58)%N; [|discriminate].
  destruct (scan_once n (skip_ws s3)) as [[v0 s4]|]; [|discriminate].
  destruct (skip_ws s4) as [|c s5]; [discriminate|].
  destruct (c =? 125)%N; [intros [= <- <-]; eauto|].
  destruct (c =? 44)%N; [apply IH | discriminate].
Qed.

Lemma loads_dumps_dict (s : dict) (v : pyval) :
  loads (dumps (PDict s)) = Ok v -> exists d, v = PDict d.
Proof.
  unfold loads.
  assert (E : exists t, dumps (PDict s) = 123%N :: t)
    by (destruct s as [|[k x] s]; eexists; reflexivity).
  destruct E as [t ->]; cbn [skip_ws is_ws N.eqb Pos.eqb orb scan_once].
  destruct (skip_ws t) as [|c2 r]; [discriminate|].
  destruct (c2 =? 125)%N.
  - destruct (skip_ws r); [intros [= <-]; eauto | discriminate].
  - destruct (parse_object _ _ _) as [[v' r']|] eqn:E; [|discriminate].
    apply parse_object_dict in E as [d ->].
    destruct (skip_ws r'); [intros [= <-]; eauto | discriminate].
Qed.

Lemma main_defined (now1 now2 : timestamp) (s : dict) (fs : filesystem) :
  main now1 now2 s fs <> None.
Proof.
  unfold main; cbv zeta.
  destruct (add_item now1 _ _ _ s) as [[[[]|e1] s1] logs1]; [|discriminate].
  destruct (add_item now2 _ _ _ s1) as [[[[]|e2] s2] logs2]; [|discriminate].
  destruct (remove_item _ _ s2) as [[[[]|e3] s3] out3]; [|discriminate].
  destruct (remove_item _ _ s3) as [[[[]|e4] s4] out4]; [|discriminate].
  destruct (get_qty _ s4) as [q|e5]; [|discriminate].
  destruct (check_low_items _ s4) as [low|e6]; [|discriminate].
  destruct (save_data _ s4 fs) as [[[]|e7] fs1] eqn:Hsave; [|discriminate].
  assert (Hfile : fs1 (str "inventory.json") = Regular (dumps (PDict s4))).
  { unfold save_data, open_write in Hsave.
    destruct (fs (str "inventory.json")); try discriminate;
      injection Hsave as <-; now rewrite pystr_eqb_refl. }
  rewrite (load_data_regular _ _ _ Hfile).
  destruct (loads (dumps (PDict s4))) as [v|e] eqn:Hl.
  - apply loads_dumps_dict in Hl as [d ->]; discriminate.
  - apply loads_raises in Hl as ->; discriminate.
Qed.
